(** * did:jwk: identifier codec, document expansion and resolver

    A shallow embedding of [did/jwk.go] together with the parts of the Go
    standard library and of the JSON codec that the file calls, and the
    properties of the method that the specification states.

    Go values are represented as follows.
    - a Go [string] is a [string] (a sequence of 8-bit characters);
    - a Go [[]byte] is a [list ascii]; the conversions [string(b)] and
      [[]byte(s)] are [string_of_list_ascii] and [list_ascii_of_string];
    - a [uint] holding a few bytes is an [N], with the shifts and masks of
      the code written with [N.shiftl], [N.shiftr], [N.lor] and [N.land];
    - a function returning [(T, error)] returns a [result T]. *)

From Stdlib Require Import List String Ascii NArith ZArith Bool Arith Lia.
From Stdlib Require Import Permutation DecimalString.
Import ListNotations.

Local Open Scope string_scope.
Local Open Scope list_scope.

Set Implicit Arguments.
Set Warnings "-register-all".

(** ** Errors *)

(** Go's [error] values as the file builds them: [fmt.Errorf] with the
    formatted message, [base64.CorruptInputError] with the offset of the
    input byte it reports, the error kind of the JSON codec, and
    [errors.Wrap]. *)
Inductive error : Type :=
| Errorf (msg : string)
| CorruptInputError (n : N)
| JSONError
| Wrap (cause : error) (msg : string).

(** [strconv.FormatInt(n, 10)] for an offset. *)
Definition FormatInt (n : N) : string :=
  NilEmpty.string_of_uint (N.to_uint n).

(** The text of an error, as [Error()] prints it. *)
Fixpoint ErrorText (e : error) : string :=
  match e with
  | Errorf msg => msg
  | CorruptInputError n =>
      "illegal base64 data at input byte " ++ FormatInt n
  | JSONError => "invalid JSON"
  | Wrap cause msg => msg ++ ": " ++ ErrorText cause
  end.

Inductive result (T : Type) : Type :=
| Ok (v : T)
| Err (e : error).

Arguments Ok {T} v.
Arguments Err {T} e.

Definition bind {A B : Type} (r : result A) (k : A -> result B) : result B :=
  match r with
  | Ok v => k v
  | Err e => Err e
  end.

(** Whether a result is a value, that is, whether the error is [nil]. *)
Definition isOk {T : Type} (r : result T) : bool :=
  match r with
  | Ok _ => true
  | Err _ => false
  end.

(** The value of a result, when there is one. *)
Definition value {T : Type} (r : result T) : option T :=
  match r with
  | Ok v => Some v
  | Err _ => None
  end.

Notation "'let*' x ':=' r 'in' k" := (bind r (fun x => k))
  (at level 10, x name, r at level 100, k at level 200).

(** ** package strings *)

Module strings.

(** [strings.HasPrefix(s, prefix)]. *)
Fixpoint HasPrefix (s prefix : string) {struct prefix} : bool :=
  match prefix, s with
  | EmptyString, _ => true
  | String p prefix', String c s' => Ascii.eqb c p && HasPrefix s' prefix'
  | String _ _, EmptyString => false
  end.

(** [strings.CutPrefix(s, prefix)]: the rest of [s] after [prefix], or
    [s] itself and [false]. *)
Fixpoint trimPrefix (s prefix : string) {struct prefix}
  : option string :=
  match prefix, s with
  | EmptyString, _ => Some s
  | String p prefix', String c s' =>
      if Ascii.eqb c p then trimPrefix s' prefix' else None
  | String _ _, EmptyString => None
  end.

Definition CutPrefix (s prefix : string) : string * bool :=
  match trimPrefix s prefix with
  | Some after => (after, true)
  | None => (s, false)
  end.

End strings.

(** ** package encoding/base64, [RawURLEncoding] *)

Module base64.

Local Open Scope N_scope.

(** The URL-safe alphabet. *)
Definition encodeURL : string :=
  "ABCDEFGHIJKLMNOPQRSTUVWXYZabcdefghijklmnopqrstuvwxyz0123456789-_".

(** [enc.encode[i]]. *)
Definition encode (i : N) : ascii :=
  nth (N.to_nat i) (list_ascii_of_string encodeURL) zero.

Fixpoint indexOf (c : ascii) (alphabet : list ascii) (i : N) : N :=
  match alphabet with
  | [] => 0xff
  | a :: alphabet' =>
      if Ascii.eqb a c then i else indexOf c alphabet' (i + 1)
  end.

(** [enc.decodeMap[c]]: the position of [c] in the alphabet, [0xff]
    for a character outside it. *)
Definition decodeMap (c : ascii) : N :=
  indexOf c (list_ascii_of_string encodeURL) 0.

Definition byte (v : N) : ascii := ascii_of_N (N.land v 0xff).

Definition uint (b : ascii) : N := N_of_ascii b.

(** [enc.Encode] without padding: three bytes give four characters, a
    remainder of one or two bytes gives two or three. *)
Fixpoint Encode (src : list ascii) : list ascii :=
  match src with
  | [] => []
  | [b0] =>
      let val := N.shiftl (uint b0) 16 in
      [encode (N.land (N.shiftr val 18) 0x3F);
       encode (N.land (N.shiftr val 12) 0x3F)]
  | [b0; b1] =>
      let val := N.lor (N.shiftl (uint b0) 16) (N.shiftl (uint b1) 8) in
      [encode (N.land (N.shiftr val 18) 0x3F);
       encode (N.land (N.shiftr val 12) 0x3F);
       encode (N.land (N.shiftr val 6) 0x3F)]
  | b0 :: b1 :: b2 :: rest =>
      let val := N.lor (N.lor (N.shiftl (uint b0) 16)
                              (N.shiftl (uint b1) 8)) (uint b2) in
      encode (N.land (N.shiftr val 18) 0x3F)
      :: encode (N.land (N.shiftr val 12) 0x3F)
      :: encode (N.land (N.shiftr val 6) 0x3F)
      :: encode (N.land val 0x3F)
      :: Encode rest
  end.

Definition EncodeToString (src : list ascii) : string :=
  string_of_list_ascii (Encode src).

(** The bytes of a quantum of [dlen] characters held in [dbuf]
    (missing characters are zero); the encoding is not strict, so the
    unused low bits of a short quantum are dropped unchecked. *)
Definition quantumBytes (d0 d1 d2 d3 : N) (dlen : nat) : list ascii :=
  let val := N.lor (N.lor (N.lor (N.shiftl d0 18) (N.shiftl d1 12))
                          (N.shiftl d2 6)) d3 in
  firstn (dlen - 1)
    [byte (N.shiftr val 16); byte (N.shiftr val 8); byte val].

(** [enc.Decode]: the loop over [decodeQuantum].  [src] is the input
    from the index [si] on, and [dbuf] holds the [j] characters of the
    quantum read so far.  Line breaks are skipped; there is no padding
    character, so every other character outside the alphabet is
    corrupt input, reported at its index [si - 1] once [si] has moved
    past it, and so is a quantum of one character at the end of the
    input, reported at [si - j] for [j = 1]. *)
Fixpoint decodeLoop (src : list ascii) (si : N) (dbuf : list N)
  : result (list ascii) :=
  match src with
  | [] =>
      match dbuf with
      | [] => Ok []
      | [d0; d1] => Ok (quantumBytes d0 d1 0 0 2)
      | [d0; d1; d2] => Ok (quantumBytes d0 d1 d2 0 3)
      | _ => Err (CorruptInputError (si - 1))
      end
  | c :: src' =>
      let si := si + 1 in
      let out := decodeMap c in
      if out =? 0xff then
        if Ascii.eqb c "010" || Ascii.eqb c "013"
        then decodeLoop src' si dbuf
        else Err (CorruptInputError (si - 1))
      else
        match dbuf with
        | [d0; d1; d2] =>
            let* tail := decodeLoop src' si [] in
            Ok (quantumBytes d0 d1 d2 out 4 ++ tail)
        | _ => decodeLoop src' si (dbuf ++ [out])
        end
  end.

Definition DecodeString (s : string) : result (list ascii) :=
  decodeLoop (list_ascii_of_string s) 0 [].

(** The characters that the decoder reads: those of the alphabet, and
    the line breaks, which it skips. *)
Definition inAlphabet (c : ascii) : bool := negb (decodeMap c =? 0xff).

Definition isLineBreak (c : ascii) : bool :=
  Ascii.eqb c "010" || Ascii.eqb c "013".

Definition countAlphabet (s : list ascii) : nat :=
  List.length (filter inAlphabet s).

(** The text without its line breaks. *)
Definition stripLineBreaks (s : string) : string :=
  string_of_list_ascii
    (filter (fun c => negb (isLineBreak c)) (list_ascii_of_string s)).

(** A text of the encoding: characters of the alphabet and line breaks
    only, and no quantum of a single character at its end. *)
Definition wellFormed (s : list ascii) : bool :=
  forallb (fun c => inAlphabet c || isLineBreak c) s
  && negb (Nat.eqb (countAlphabet s mod 4) 1).

End base64.

(** ** package unicode/utf8 *)

Module utf8.

Local Open Scope N_scope.

Definition RuneError : N := 0xFFFD.

Definition uint (b : ascii) : N := N_of_ascii b.
Definition byte (v : N) : ascii := ascii_of_N (N.land v 0xff).

Definition inRange (lo hi : N) (b : ascii) : bool :=
  (lo <=? uint b) && (uint b <=? hi).

(** The range accepted for the second byte after the first byte [s0]
    ([acceptRanges] of the library). *)
Definition acceptRange (s0 : N) : N * N :=
  if s0 =? 0xE0 then (0xA0, 0xBF)
  else if s0 =? 0xED then (0x80, 0x9F)
  else if s0 =? 0xF0 then (0x90, 0xBF)
  else if s0 =? 0xF4 then (0x80, 0x8F)
  else (0x80, 0xBF).

(** [utf8.DecodeRune]: the first rune of [p] and its width in bytes;
    [(RuneError, 1)] for an encoding that is not valid,
    [(RuneError, 0)] for no bytes. *)
Definition DecodeRune (p : list ascii) : N * nat :=
  match p with
  | [] => (RuneError, 0%nat)
  | b0 :: p1 =>
      let s0 := uint b0 in
      if s0 <? 0x80 then (s0, 1%nat)
      else if (s0 <? 0xC2) || (0xF4 <? s0) then (RuneError, 1%nat)
      else
        let (lo, hi) := acceptRange s0 in
        match p1 with
        | [] => (RuneError, 1%nat)
        | b1 :: p2 =>
            if negb (inRange lo hi b1) then (RuneError, 1%nat)
            else if s0 <? 0xE0 then
              (N.lor (N.shiftl (N.land s0 0x1F) 6) (N.land (uint b1) 0x3F),
               2%nat)
            else
              match p2 with
              | [] => (RuneError, 1%nat)
              | b2 :: p3 =>
                  if negb (inRange 0x80 0xBF b2) then (RuneError, 1%nat)
                  else if s0 <? 0xF0 then
                    (N.lor (N.lor (N.shiftl (N.land s0 0x0F) 12)
                                  (N.shiftl (N.land (uint b1) 0x3F) 6))
                           (N.land (uint b2) 0x3F),
                     3%nat)
                  else
                    match p3 with
                    | [] => (RuneError, 1%nat)
                    | b3 :: _ =>
                        if negb (inRange 0x80 0xBF b3)
                        then (RuneError, 1%nat)
                        else
                          (N.lor
                             (N.lor
                                (N.lor (N.shiftl (N.land s0 0x07) 18)
                                   (N.shiftl (N.land (uint b1) 0x3F) 12))
                                (N.shiftl (N.land (uint b2) 0x3F) 6))
                             (N.land (uint b3) 0x3F),
                           4%nat)
                    end
              end
        end
  end.

(** [utf8.AppendRune] on an empty buffer: the UTF-8 encoding of [r],
    that of [RuneError] for a surrogate or a value out of range. *)
Definition EncodeRune (r : N) : list ascii :=
  let r := if (0x10FFFF <? r) || ((0xD800 <=? r) && (r <=? 0xDFFF))
           then RuneError else r in
  if r <=? 0x7F then [byte r]
  else if r <=? 0x7FF then
    [byte (N.lor 0xC0 (N.shiftr r 6));
     byte (N.lor 0x80 (N.land r 0x3F))]
  else if r <=? 0xFFFF then
    [byte (N.lor 0xE0 (N.shiftr r 12));
     byte (N.lor 0x80 (N.land (N.shiftr r 6) 0x3F));
     byte (N.lor 0x80 (N.land r 0x3F))]
  else
    [byte (N.lor 0xF0 (N.shiftr r 18));
     byte (N.lor 0x80 (N.land (N.shiftr r 12) 0x3F));
     byte (N.lor 0x80 (N.land (N.shiftr r 6) 0x3F));
     byte (N.lor 0x80 (N.land r 0x3F))].

(** [p] coerced to valid UTF-8: every byte that starts no valid
    encoding is replaced by the encoding of [RuneError]. *)
Fixpoint coerceFuel (fuel : nat) (p : list ascii) : list ascii :=
  match fuel, p with
  | _, [] => []
  | O, _ :: _ => []
  | S fuel', _ :: rest =>
      let (r, size) := DecodeRune p in
      if (r =? RuneError) && (size =? 1)%nat then
        ["239"; "191"; "189"]%char ++ coerceFuel fuel' rest
      else firstn size p ++ coerceFuel fuel' (skipn size p)
  end.

Definition Coerce (p : list ascii) : list ascii :=
  coerceFuel (List.length p) p.

Definition CoerceString (s : string) : string :=
  string_of_list_ascii (Coerce (list_ascii_of_string s)).

(** [utf8.Valid]. *)
Fixpoint validFuel (fuel : nat) (p : list ascii) : bool :=
  match fuel with
  | O => match p with [] => true | _ => false end
  | S fuel' =>
      match p with
      | [] => true
      | _ :: _ =>
          let (r, size) := DecodeRune p in
          if (r =? RuneError) && (size =? 1)%nat then false
          else validFuel fuel' (skipn size p)
      end
  end.

Definition Valid (p : list ascii) : bool := validFuel (List.length p) p.

Definition ValidString (s : string) : bool :=
  Valid (list_ascii_of_string s).

(** The runes that [DecodeRune] computes from two, three and four
    bytes, and the range of a continuation byte. *)
Definition rune2 (b0 b1 : ascii) : N :=
  N.lor (N.shiftl (N.land (uint b0) 0x1F) 6) (N.land (uint b1) 0x3F).

Definition rune3 (b0 b1 b2 : ascii) : N :=
  N.lor (N.lor (N.shiftl (N.land (uint b0) 0x0F) 12)
               (N.shiftl (N.land (uint b1) 0x3F) 6))
        (N.land (uint b2) 0x3F).

Definition rune4 (b0 b1 b2 b3 : ascii) : N :=
  N.lor (N.lor (N.lor (N.shiftl (N.land (uint b0) 0x07) 18)
                      (N.shiftl (N.land (uint b1) 0x3F) 12))
               (N.shiftl (N.land (uint b2) 0x3F) 6))
        (N.land (uint b3) 0x3F).

Definition cont (b : ascii) : Prop := 0x80 <= uint b <= 0xBF.

End utf8.

(** ** package json

    The JSON codec as far as the file uses it: the encoding of a string,
    and the decoding of a JSON text (RFC 8259) into a value.  String
    values are encoded as Go encodes them, coerced to valid UTF-8 and
    with the HTML characters escaped; error values carry no detail. *)

Module json.

Local Open Scope char_scope.
Local Open Scope N_scope.

Definition quote : ascii := "034".
Definition uint (b : ascii) : N := N_of_ascii b.

Inductive value : Type :=
| Null
| Bool (b : bool)
| Number (literal : list ascii)
| Str (s : list ascii)
| Array (elements : list value)
| Object (members : list (list ascii * value)).

(** *** Encoding of strings *)

Definition hex : string := "0123456789abcdef".

Definition hexDigit (n : N) : ascii :=
  nth (N.to_nat n) (list_ascii_of_string hex) zero.

(** [htmlSafeSet[b]] for [b < utf8.RuneSelf]. *)
Definition htmlSafeSet (b : ascii) : bool :=
  (0x20 <=? uint b)
  && negb (Ascii.eqb b quote) && negb (Ascii.eqb b "\")
  && negb (Ascii.eqb b "<") && negb (Ascii.eqb b ">")
  && negb (Ascii.eqb b "&").

(** The escape of a byte below [utf8.RuneSelf] outside [htmlSafeSet]. *)
Definition escapeByte (b : ascii) : list ascii :=
  if Ascii.eqb b "\" || Ascii.eqb b quote then ["\"; b]
  else if Ascii.eqb b "010" then ["\"; "n"]
  else if Ascii.eqb b "013" then ["\"; "r"]
  else if Ascii.eqb b "009" then ["\"; "t"]
  else ["\"; "u"; "0"; "0";
        hexDigit (N.shiftr (uint b) 4); hexDigit (N.land (uint b) 0xF)].

(** The loop of [appendString] with HTML escaping, between the two
    quotes.  [fuel] bounds the number of runes. *)
Fixpoint appendStringFuel (fuel : nat) (src : list ascii) : list ascii :=
  match fuel, src with
  | _, [] => []
  | O, _ :: _ => []
  | S fuel', b :: rest =>
      if uint b <? 0x80 then
        (if htmlSafeSet b then [b] else escapeByte b)
          ++ appendStringFuel fuel' rest
      else
        let (c, size) := utf8.DecodeRune src in
        if (c =? utf8.RuneError) && (size =? 1)%nat then
          ["\"; "u"; "f"; "f"; "f"; "d"] ++ appendStringFuel fuel' rest
        else if (c =? 0x2028) || (c =? 0x2029) then
          ["\"; "u"; "2"; "0"; "2"; hexDigit (N.land c 0xF)]
            ++ appendStringFuel fuel' (skipn size src)
        else
          firstn size src ++ appendStringFuel fuel' (skipn size src)
  end.

Definition appendString (src : string) : list ascii :=
  let p := list_ascii_of_string src in
  [quote] ++ appendStringFuel (List.length p) p ++ [quote].

(** *** Decoding *)

Definition isSpace (c : ascii) : bool :=
  Ascii.eqb c " " || Ascii.eqb c "009" || Ascii.eqb c "010"
  || Ascii.eqb c "013".

Fixpoint skipWhiteSpace (s : list ascii) : list ascii :=
  match s with
  | c :: s' => if isSpace c then skipWhiteSpace s' else s
  | [] => []
  end.

Definition hexValue (c : ascii) : option N :=
  let n := uint c in
  if (0x30 <=? n) && (n <=? 0x39) then Some (n - 0x30)
  else if (0x61 <=? n) && (n <=? 0x66) then Some (n - 0x61 + 10)
  else if (0x41 <=? n) && (n <=? 0x46) then Some (n - 0x41 + 10)
  else None.

(** [getu4]: the value of four hexadecimal digits. *)
Definition getu4 (h1 h2 h3 h4 : ascii) : option N :=
  match hexValue h1, hexValue h2, hexValue h3, hexValue h4 with
  | Some a, Some b, Some c, Some d =>
      Some (N.lor (N.lor (N.lor (N.shiftl a 12) (N.shiftl b 8))
                         (N.shiftl c 4)) d)
  | _, _, _, _ => None
  end.

Definition isHighSurrogate (r : N) : bool := (0xD800 <=? r) && (r <? 0xDC00).
Definition isLowSurrogate (r : N) : bool := (0xDC00 <=? r) && (r <? 0xE000).

(** [utf16.DecodeRune]. *)
Definition decodeSurrogates (r1 r2 : N) : N :=
  N.lor (N.shiftl (r1 - 0xD800) 10) (r2 - 0xDC00) + 0x10000.

Definition simpleEscape (c : ascii) : option ascii :=
  if Ascii.eqb c quote then Some quote
  else if Ascii.eqb c "\" then Some "\"
  else if Ascii.eqb c "/" then Some "/"
  else if Ascii.eqb c "b" then Some "008"
  else if Ascii.eqb c "f" then Some "012"
  else if Ascii.eqb c "n" then Some "010"
  else if Ascii.eqb c "r" then Some "013"
  else if Ascii.eqb c "t" then Some "009"
  else None.

(** A string after its opening quote: its bytes and the input after
    the closing quote.  A [\u] escape of a surrogate pair gives one
    rune, a lone surrogate the replacement rune; a control character
    must be escaped. *)
Fixpoint decodeString (s : list ascii)
  : result (list ascii * list ascii) :=
  match s with
  | [] => Err JSONError
  | c :: s1 =>
      if Ascii.eqb c quote then Ok ([], s1)
      else if Ascii.eqb c "\" then
        match s1 with
        | [] => Err JSONError
        | e :: s2 =>
            match simpleEscape e with
            | Some b =>
                let* r := decodeString s2 in Ok (b :: fst r, snd r)
            | None =>
                if negb (Ascii.eqb e "u") then Err JSONError
                else
                  match s2 with
                  | h1 :: h2 :: h3 :: h4 :: s3 =>
                      match getu4 h1 h2 h3 h4 with
                      | None => Err JSONError
                      | Some rr =>
                          let single :=
                            let* r := decodeString s3 in
                            Ok (utf8.EncodeRune rr ++ fst r, snd r) in
                          if isHighSurrogate rr then
                            match s3 with
                            | b :: u :: l1 :: l2 :: l3 :: l4 :: s4 =>
                                match getu4 l1 l2 l3 l4 with
                                | Some rr1 =>
                                    if Ascii.eqb b "\" && Ascii.eqb u "u"
                                       && isLowSurrogate rr1
                                    then
                                      let* r := decodeString s4 in
                                      Ok (utf8.EncodeRune
                                            (decodeSurrogates rr rr1)
                                            ++ fst r, snd r)
                                    else single
                                | None => single
                                end
                            | _ => single
                            end
                          else single
                      end
                  | _ => Err JSONError
                  end
            end
        end
      else if uint c <? 0x20 then Err JSONError
      else let* r := decodeString s1 in Ok (c :: fst r, snd r)
  end.

Definition isDigit (c : ascii) : bool :=
  (0x30 <=? uint c) && (uint c <=? 0x39).

Fixpoint digits (s : list ascii) : list ascii * list ascii :=
  match s with
  | c :: s' =>
      if isDigit c then let (ds, r) := digits s' in (c :: ds, r)
      else ([], s)
  | [] => ([], [])
  end.

(** The input after the character [c], if the input starts with it. *)
Definition startsWith (c : ascii) (s : list ascii) : option (list ascii) :=
  match s with
  | c' :: r => if Ascii.eqb c' c then Some r else None
  | [] => None
  end.

(** The input after the literal [lit], if the input starts with it. *)
Fixpoint literal (lit : string) (s : list ascii) : option (list ascii) :=
  match lit with
  | EmptyString => Some s
  | String l lit' =>
      match startsWith l s with
      | Some r => literal lit' r
      | None => None
      end
  end.

(** A number: an optional minus sign, an integer part without leading
    zero, an optional fraction and an optional exponent. *)
Definition decodeNumber (s : list ascii)
  : result (list ascii * list ascii) :=
  let (sign, s1) :=
    match startsWith "-" s with
    | Some r => (["-"], r)
    | None => ([], s)
    end in
  let* int :=
    match s1 with
    | d :: r =>
        if Ascii.eqb d "0" then Ok ([d], r)
        else if isDigit d then let (ds, r') := digits r in Ok (d :: ds, r')
        else Err JSONError
    | [] => Err JSONError
    end in
  let* frac :=
    match startsWith "." (snd int) with
    | Some r =>
        match digits r with
        | ([], _) => Err JSONError
        | (ds, r') => Ok ("." :: ds, r')
        end
    | None => Ok ([], snd int)
    end in
  let* exp :=
    match snd frac with
    | e :: r =>
        if Ascii.eqb e "e" || Ascii.eqb e "E" then
          let (esign, r1) :=
            match r with
            | c :: r' =>
                if Ascii.eqb c "+" || Ascii.eqb c "-"
                then ([c], r') else ([], r)
            | [] => ([], r)
            end in
          match digits r1 with
          | ([], _) => Err JSONError
          | (ds, r') => Ok (e :: esign ++ ds, r')
          end
        else Ok ([], snd frac)
    | [] => Ok ([], [])
    end in
  Ok (sign ++ fst int ++ fst frac ++ fst exp, snd exp).

(** A JSON value and the input after it.  [fuel] bounds the depth of
    the calls; two calls in a row read at least one character, so twice
    the length of the input is enough. *)
Fixpoint decodeValue (fuel : nat) (s : list ascii)
  : result (value * list ascii) :=
  match fuel with
  | O => Err JSONError
  | S fuel' =>
      match skipWhiteSpace s with
      | [] => Err JSONError
      | c :: s1 =>
          if Ascii.eqb c "{" then
            match startsWith "}" (skipWhiteSpace s1) with
            | Some s2 => Ok (Object [], s2)
            | None =>
                let* r := decodeMembers fuel' (skipWhiteSpace s1) in
                Ok (Object (fst r), snd r)
            end
          else if Ascii.eqb c "[" then
            match startsWith "]" (skipWhiteSpace s1) with
            | Some s2 => Ok (Array [], s2)
            | None =>
                let* r := decodeElements fuel' (skipWhiteSpace s1) in
                Ok (Array (fst r), snd r)
            end
          else if Ascii.eqb c quote then
            let* r := decodeString s1 in Ok (Str (fst r), snd r)
          else
            match literal "true" (c :: s1) with
            | Some r => Ok (Bool true, r)
            | None =>
            match literal "false" (c :: s1) with
            | Some r => Ok (Bool false, r)
            | None =>
            match literal "null" (c :: s1) with
            | Some r => Ok (Null, r)
            | None =>
                let* r := decodeNumber (c :: s1) in
                Ok (Number (fst r), snd r)
            end end end
      end
  end

with decodeMembers (fuel : nat) (s : list ascii)
  : result (list (list ascii * value) * list ascii) :=
  match fuel with
  | O => Err JSONError
  | S fuel' =>
      match startsWith quote (skipWhiteSpace s) with
      | None => Err JSONError
      | Some s1 =>
          let* k := decodeString s1 in
          match startsWith ":" (skipWhiteSpace (snd k)) with
          | None => Err JSONError
          | Some s2 =>
              let* v := decodeValue fuel' s2 in
              match startsWith "," (skipWhiteSpace (snd v)) with
              | Some s3 =>
                  let* r := decodeMembers fuel' s3 in
                  Ok ((fst k, fst v) :: fst r, snd r)
              | None =>
                  match startsWith "}" (skipWhiteSpace (snd v)) with
                  | Some s3 => Ok ([(fst k, fst v)], s3)
                  | None => Err JSONError
                  end
              end
          end
      end
  end

with decodeElements (fuel : nat) (s : list ascii)
  : result (list value * list ascii) :=
  match fuel with
  | O => Err JSONError
  | S fuel' =>
      let* v := decodeValue fuel' s in
      match startsWith "," (skipWhiteSpace (snd v)) with
      | Some s1 =>
          let* r := decodeElements fuel' s1 in
          Ok (fst v :: fst r, snd r)
      | None =>
          match startsWith "]" (skipWhiteSpace (snd v)) with
          | Some s1 => Ok ([fst v], s1)
          | None => Err JSONError
          end
      end
  end.

(** A whole JSON text: one value, with white space around it only. *)
Definition decode (data : list ascii) : result value :=
  let* r := decodeValue (S (2 * List.length data)) data in
  match skipWhiteSpace (snd r) with
  | [] => Ok (fst r)
  | _ :: _ => Err JSONError
  end.

End json.

(** ** package jwx: the key object *)

Module jwx.

(** Modelled from the spec: the key-object shape [jwx.PublicKeyJWK],
    which is declared outside [did/jwk.go].  It carries the algorithm
    family, the curve parameters, the modulus parameters and the
    key-usage hint, each a string that is left out of the JSON text
    when it is empty. *)
Record PublicKeyJWK : Type := {
  KTY : string;
  CRV : string;
  X : string;
  Y : string;
  N : string;
  E : string;
  Use : string
}.

(** The zero value of the struct. *)
Definition zero : PublicKeyJWK :=
  {| KTY := ""; CRV := ""; X := ""; Y := ""; N := ""; E := ""; Use := "" |}.

(** The members of the key object, in the order of the declaration. *)
Definition fields (k : PublicKeyJWK) : list (string * string) :=
  [("kty", KTY k); ("crv", CRV k); ("x", X k); ("y", Y k);
   ("n", N k); ("e", E k); ("use", Use k)].

Definition setField (name v : string) (k : PublicKeyJWK) : PublicKeyJWK :=
  if String.eqb name "kty" then
    {| KTY := v; CRV := CRV k; X := X k; Y := Y k; N := N k; E := E k;
       Use := Use k |}
  else if String.eqb name "crv" then
    {| KTY := KTY k; CRV := v; X := X k; Y := Y k; N := N k; E := E k;
       Use := Use k |}
  else if String.eqb name "x" then
    {| KTY := KTY k; CRV := CRV k; X := v; Y := Y k; N := N k; E := E k;
       Use := Use k |}
  else if String.eqb name "y" then
    {| KTY := KTY k; CRV := CRV k; X := X k; Y := v; N := N k; E := E k;
       Use := Use k |}
  else if String.eqb name "n" then
    {| KTY := KTY k; CRV := CRV k; X := X k; Y := Y k; N := v; E := E k;
       Use := Use k |}
  else if String.eqb name "e" then
    {| KTY := KTY k; CRV := CRV k; X := X k; Y := Y k; N := N k; E := v;
       Use := Use k |}
  else if String.eqb name "use" then
    {| KTY := KTY k; CRV := CRV k; X := X k; Y := Y k; N := N k; E := E k;
       Use := v |}
  else k.

Definition isField (name : string) : bool :=
  existsb (String.eqb name) ["kty"; "crv"; "x"; "y"; "n"; "e"; "use"].

(** The key object with every field coerced to valid UTF-8, and the
    test that every field is valid UTF-8. *)
Definition coerceKey (k : PublicKeyJWK) : PublicKeyJWK :=
  {| KTY := utf8.CoerceString (KTY k); CRV := utf8.CoerceString (CRV k);
     X := utf8.CoerceString (X k); Y := utf8.CoerceString (Y k);
     N := utf8.CoerceString (N k); E := utf8.CoerceString (E k);
     Use := utf8.CoerceString (Use k) |}.

Definition validKey (k : PublicKeyJWK) : bool :=
  forallb (fun f : string * string => utf8.ValidString (snd f)) (fields k).

(** The fields of a key object that are not empty, and the members
    that the JSON text of the key object holds for them. *)
Definition present (fs : list (string * string)) : list (string * string) :=
  filter (fun f => negb (String.eqb (snd f) "")) fs.

Definition membersOf (fs : list (string * string))
  : list (list ascii * json.value) :=
  map (fun f => (utf8.Coerce (list_ascii_of_string (fst f)),
                 json.Str (utf8.Coerce (list_ascii_of_string (snd f)))))
      (present fs).

(** *** [json.Marshal] of string members

    The text between the braces of the JSON object that holds the
    members [fs], each a name and a string, those with an empty string
    left out. *)

Fixpoint appendMembers (first : bool) (fs : list (string * string))
  : list ascii :=
  match fs with
  | [] => []
  | (name, v) :: fs' =>
      if String.eqb v "" then appendMembers first fs'
      else
        (if first then [] else [","%char])
          ++ json.appendString name ++ [":"%char] ++ json.appendString v
          ++ appendMembers false fs'
  end.

(** *** [json.Unmarshal] into the key object *)

Definition toLower (c : ascii) : ascii :=
  let n := N_of_ascii c in
  if ((0x41 <=? n) && (n <=? 0x5A))%N then ascii_of_N (n + 0x20) else c.

(** The name of a member is matched with the name of a field without
    regard to the case of its letters. *)
Definition foldName (name : list ascii) : string :=
  string_of_list_ascii (map toLower name).

(** One member: a string is stored in the field of that name, [null]
    leaves the field as it is, any other value is an error; a member
    that names no field is skipped. *)
Definition assign (k : PublicKeyJWK) (m : list ascii * json.value)
  : result PublicKeyJWK :=
  let name := foldName (fst m) in
  if isField name then
    match snd m with
    | json.Str v => Ok (setField name (string_of_list_ascii v) k)
    | json.Null => Ok k
    | _ => Err JSONError
    end
  else Ok k.

Fixpoint assignAll (k : PublicKeyJWK) (ms : list (list ascii * json.value))
  : result PublicKeyJWK :=
  match ms with
  | [] => Ok k
  | m :: ms' => let* k' := assign k m in assignAll k' ms'
  end.

(** [json.Unmarshal(data, &k)] for [k] holding [start]: the text must
    be an object or [null]. *)
Definition Unmarshal (data : list ascii) (start : PublicKeyJWK)
  : result PublicKeyJWK :=
  let* v := json.decode data in
  match v with
  | json.Null => Ok start
  | json.Object ms => assignAll start ms
  | _ => Err JSONError
  end.

End jwx.

(** ** package jwk: the key interface *)

Module jwk.

(** [jwk.Key] is an interface of the JWK library; of its methods the
    file uses the JSON serialization only, through [json.Marshal]. *)
Class Key (K : Type) : Type := {
  MarshalJSON : K -> result (list ascii)
}.

End jwk.

(** ** package did: the document types *)

Module VerificationMethod.

(** Modelled from the spec: a verification-method entry, with the
    fields the expansion fills. *)
Record t : Type := {
  ID : string;
  Type_ : string;
  Controller : string;
  PublicKeyJWK : option jwx.PublicKeyJWK
}.

End VerificationMethod.

(** A reference to a verification method, here always its identifier. *)
Definition VerificationMethodSet : Type := string.

Module Document.

(** Modelled from the spec: the identity document, with its context
    list, its identifier, its verification methods and its five
    purpose lists.  A list that is [nil] is absent from the
    document. *)
Record t : Type := {
  Context : list string;
  ID : string;
  VerificationMethod : list VerificationMethod.t;
  Authentication : list VerificationMethodSet;
  AssertionMethod : list VerificationMethodSet;
  KeyAgreement : list VerificationMethodSet;
  CapabilityInvocation : list VerificationMethodSet;
  CapabilityDelegation : list VerificationMethodSet
}.

End Document.

Module ResolutionResult.

(** Modelled from the spec: the result of a resolution, wrapping the
    document. *)
Record t : Type := {
  Document : Document.t
}.

End ResolutionResult.

Definition Method : Type := string.

(** A key-type tag of the key-generation package. *)
Definition KeyType : Type := string.

(** ** did/jwk.go *)

Definition DIDJWK : Type := string.

(** did:jwk prefix *)
Definition JWKPrefix : string := "did:jwk".
Definition JWS2020Context : string :=
  "https://w3id.org/security/suites/jws-2020/v1".

Section JWK.

(** Constants of the packages around the file: the standard DID
    context, the type tag of the JSON-Web-Key-2020 suite, the tag of
    this method and the key-type tags. *)
Variable KnownDIDContext : string.
Variable JSONWebKey2020Type : string.
Variable JWKMethod : Method.
Variables Ed25519 X25519 SECP256k1 P256 P384 P521 RSA : KeyType.

(** The key-generation collaborator: [crypto.GenerateKeyByKeyType]
    draws from a source of randomness, whose state is threaded
    through, and [jwx.PublicKeyToJWK] converts the public key into a
    [jwk.Key]. *)
Variables PublicKey PrivateKey Entropy JWKKey : Type.
Context {JWKKey_Key : jwk.Key JWKKey}.
Variable GenerateKeyByKeyType :
  KeyType -> Entropy -> result (PublicKey * PrivateKey) * Entropy.
Variable PublicKeyToJWK : PublicKey -> result JWKKey.

Definition String_ (d : DIDJWK) : string := d.

(** Suffix returns the value without the `did:jwk` prefix *)
Definition Suffix (d : DIDJWK) : result string :=
  let (suffix, ok) := strings.CutPrefix d (JWKPrefix ++ ":")%string in
  if ok then Ok suffix
  else Err (Errorf ("invalid did:jwk: " ++ d)).

Definition Method_ (d : DIDJWK) : Method := JWKMethod.

Definition GetSupportedDIDJWKTypes : list KeyType :=
  [Ed25519; X25519; SECP256k1; P256; P384; P521; RSA].

Fixpoint rangeContains (jwkTypes : list KeyType) (kt : KeyType) : bool :=
  match jwkTypes with
  | [] => false
  | t :: jwkTypes' =>
      if String.eqb t kt then true else rangeContains jwkTypes' kt
  end.

Definition isSupportedJWKType (kt : KeyType) : bool :=
  let jwkTypes := GetSupportedDIDJWKTypes in
  rangeContains jwkTypes kt.

(** CreateDIDJWK creates a did:jwk from a JWK public key: serialize
    it into a UTF-8 string, encode the string using base64url, prepend
    the did:jwk prefix. *)
Definition CreateDIDJWK {K : Type} `{jwk.Key K} (publicKeyJWK : K)
  : result DIDJWK :=
  match jwk.MarshalJSON publicKeyJWK with
  | Err err => Err (Wrap err "marshalling public key JWK")
  | Ok pubKeyJWKBytes =>
      let pubKeyJWKStr := string_of_list_ascii pubKeyJWKBytes in
      let encodedPubKeyJWKStr :=
        base64.EncodeToString (list_ascii_of_string pubKeyJWKStr) in
      let didJWK := (JWKPrefix ++ ":" ++ encodedPubKeyJWKStr)%string in
      Ok didJWK
  end.

(** GenerateDIDJWK takes in a key type value that this library
    supports and constructs a conformant did:jwk identifier. *)
Definition GenerateDIDJWK (kt : KeyType) (rand : Entropy)
  : result (PrivateKey * DIDJWK) * Entropy :=
  if negb (isSupportedJWKType kt) then
    (Err (Errorf ("unsupported did:jwk type: " ++ kt)), rand)
  else
    match GenerateKeyByKeyType kt rand with
    | (Err err, rand') => (Err (Wrap err "generating key for did:jwk"), rand')
    | (Ok (pubKey, privKey), rand') =>
        match PublicKeyToJWK pubKey with
        | Err err => (Err (Wrap err "converting public key to JWK"), rand')
        | Ok pubKeyJWK =>
            match CreateDIDJWK pubKeyJWK with
            | Err err => (Err (Wrap err "creating did:jwk"), rand')
            | Ok didJWK => (Ok (privKey, didJWK), rand')
            end
        end
    end.

(** Expand turns the DID JWK into a compliant DID Document *)
Definition Expand (d : DIDJWK) : result Document.t :=
  let id := String_ d in
  if negb (strings.HasPrefix id JWKPrefix) then
    Err (Errorf ("not a did:jwk DID, invalid prefix: " ++ id))
  else
    match Suffix d with
    | Err err => Err (Wrap err "reading suffix")
    | Ok encodedJWK =>
    match base64.DecodeString encodedJWK with
    | Err err => Err (Wrap err "decoding did:jwk")
    | Ok decodedPubKeyJWKStr =>
    match jwx.Unmarshal decodedPubKeyJWKStr jwx.zero with
    | Err err => Err (Wrap err "unmarshalling did:jwk")
    | Ok pubKeyJWK =>
        let keyReference := "#0" in
        let keyID := (id ++ keyReference)%string in
        let doc :=
          {| Document.Context := [KnownDIDContext; JWS2020Context];
             Document.ID := id;
             Document.VerificationMethod :=
               [ {| VerificationMethod.ID := keyID;
                    VerificationMethod.Type_ := JSONWebKey2020Type;
                    VerificationMethod.Controller := id;
                    VerificationMethod.PublicKeyJWK := Some pubKeyJWK |} ];
             Document.Authentication := [keyID];
             Document.AssertionMethod := [keyID];
             Document.KeyAgreement := [keyID];
             Document.CapabilityInvocation := [keyID];
             Document.CapabilityDelegation := [keyID] |} in
        (* If the JWK contains a use property with the value "sig" then
           the keyAgreement property is not included in the DID
           Document.  If the use value is "enc" then only the
           keyAgreement property is included in the DID Document. *)
        let doc :=
          if String.eqb (jwx.Use pubKeyJWK) "sig" then
            {| Document.Context := Document.Context doc;
               Document.ID := Document.ID doc;
               Document.VerificationMethod :=
                 Document.VerificationMethod doc;
               Document.Authentication := Document.Authentication doc;
               Document.AssertionMethod := Document.AssertionMethod doc;
               Document.KeyAgreement := [];
               Document.CapabilityInvocation :=
                 Document.CapabilityInvocation doc;
               Document.CapabilityDelegation :=
                 Document.CapabilityDelegation doc |}
          else if String.eqb (jwx.Use pubKeyJWK) "enc" then
            {| Document.Context := Document.Context doc;
               Document.ID := Document.ID doc;
               Document.VerificationMethod :=
                 Document.VerificationMethod doc;
               Document.Authentication := [];
               Document.AssertionMethod := [];
               Document.KeyAgreement := Document.KeyAgreement doc;
               Document.CapabilityInvocation := [];
               Document.CapabilityDelegation := [] |}
          else doc in
        Ok doc
    end end end.

Definition IsValid (d : DIDJWK) : bool :=
  match Expand d with
  | Ok _ => true
  | Err _ => false
  end.

(** [JWKResolver.Resolve]; the context and the options are not
    used. *)
Definition Resolve (did : string) : result ResolutionResult.t :=
  let didJWK : DIDJWK := did in
  match Expand didJWK with
  | Err err => Err (Wrap err "expanding did:jwk")
  | Ok doc => Ok {| ResolutionResult.Document := doc |}
  end.

(** [JWKResolver.Methods]. *)
Definition Methods : list Method := [JWKMethod].

(** ** The specification's view of the method *)

(** The decode operation of the specification: the payload after the
    prefix and the colon, decoded from base64url and deserialized into
    the key-object shape. *)
Definition Decode (d : DIDJWK) : result jwx.PublicKeyJWK :=
  let* encodedJWK := Suffix d in
  let* decodedPubKeyJWKStr := base64.DecodeString encodedJWK in
  jwx.Unmarshal decodedPubKeyJWKStr jwx.zero.

Definition purpose (present : bool) (keyID : string)
  : list VerificationMethodSet :=
  if present then [keyID] else [].

(** The expansion of the specification, steps 1 to 5: one verification
    method under the fragment [#0], every purpose list holding that
    one reference unless the usage hint removes it. *)
Definition expansion (id : string) (k : jwx.PublicKeyJWK) : Document.t :=
  let keyID := (id ++ "#0")%string in
  let sig := String.eqb (jwx.Use k) "sig" in
  let enc := String.eqb (jwx.Use k) "enc" in
  {| Document.Context := [KnownDIDContext; JWS2020Context];
     Document.ID := id;
     Document.VerificationMethod :=
       [ {| VerificationMethod.ID := keyID;
            VerificationMethod.Type_ := JSONWebKey2020Type;
            VerificationMethod.Controller := id;
            VerificationMethod.PublicKeyJWK := Some k |} ];
     Document.Authentication := purpose (negb enc) keyID;
     Document.AssertionMethod := purpose (negb enc) keyID;
     Document.KeyAgreement := purpose (negb sig) keyID;
     Document.CapabilityInvocation := purpose (negb enc) keyID;
     Document.CapabilityDelegation := purpose (negb enc) keyID |}.

(** The four validation gates that the specification lists for the
    decode operation. *)
Inductive Gate : Type :=
| PrefixGate
| PayloadGate
| Base64Gate
| JSONGate.

(** The first gate of the specification that an identifier fails, if
    any. *)
Definition failingGate (d : DIDJWK) : option Gate :=
  match strings.trimPrefix d (JWKPrefix ++ ":")%string with
  | None => Some PrefixGate
  | Some payload =>
      if String.eqb payload "" then Some PayloadGate
      else
        match base64.DecodeString payload with
        | Err _ => Some Base64Gate
        | Ok bytes =>
            match jwx.Unmarshal bytes jwx.zero with
            | Err _ => Some JSONGate
            | Ok _ => None
            end
        end
  end.

(** The gate that an error of [Expand] names, by its message. *)
Definition errorGate (e : error) : option Gate :=
  match e with
  | Errorf msg =>
      if strings.HasPrefix msg "not a did:jwk DID, invalid prefix: "
      then Some PrefixGate else None
  | Wrap _ msg =>
      if String.eqb msg "reading suffix" then Some PrefixGate
      else if String.eqb msg "decoding did:jwk" then Some Base64Gate
      else if String.eqb msg "unmarshalling did:jwk" then Some JSONGate
      else None
  | _ => None
  end.

End JWK.

(** ** Concrete identifiers and key objects *)

(** The identifiers of the key objects with the use field "sig" and
    "enc", and of an Ed25519 key without use field. *)
Definition sigDID : DIDJWK := "did:jwk:eyJ1c2UiOiJzaWcifQ".
Definition encDID : DIDJWK := "did:jwk:eyJ1c2UiOiJlbmMifQ".
Definition okpDID : DIDJWK :=
  "did:jwk:eyJrdHkiOiJPS1AiLCJjcnYiOiJFZDI1NTE5IiwieCI6IjExcVlBWUt4Q3JmVlNfN1R5V1FIT2c3aGN2UGFwaU1scndJYWFQY0hVUm8ifQ".

Definition keyWithUse (use : string) : jwx.PublicKeyJWK :=
  {| jwx.KTY := ""; jwx.CRV := ""; jwx.X := ""; jwx.Y := ""; jwx.N := "";
     jwx.E := ""; jwx.Use := use |}.

Definition okpKey : jwx.PublicKeyJWK :=
  {| jwx.KTY := "OKP"; jwx.CRV := "Ed25519";
     jwx.X := "11qYAYKxCrfVS_7TyWQHOg7hcvPapiMlrwIaaPcHURo";
     jwx.Y := ""; jwx.N := ""; jwx.E := ""; jwx.Use := "" |}.

(** A key object on the curve P-224, which is not among the supported
    key types. *)
Definition p224Key : jwx.PublicKeyJWK :=
  {| jwx.KTY := "EC"; jwx.CRV := "P-224";
     jwx.X := "XGllaElhk2ussgeCy0Vd7qrxD2VsvPQAThPXog";
     jwx.Y := "MzZr6Z0SncRjZHrRJi8yKj4nSdIJyCPdgv0dGA";
     jwx.N := ""; jwx.E := ""; jwx.Use := "" |}.

(** The JSON texts of the examples are written with an apostrophe for
    each quotation mark. *)
Definition jsonText (s : string) : list ascii :=
  map (fun c : ascii => if Ascii.eqb c "'" then json.quote else c)
      (list_ascii_of_string s).

(** The serializations of four keys: the Ed25519 key, a key with the
    use "enc", the key on the curve P-224 with its members in the
    alphabetical order of their names, and a key whose member y is a
    number. *)
Definition okpText : list ascii :=
  jsonText "{'kty':'OKP','crv':'Ed25519','x':'11qYAYKxCrfVS_7TyWQHOg7hcvPapiMlrwIaaPcHURo'}".

Definition encText : list ascii := jsonText "{'use':'enc'}".

Definition p224Text : list ascii :=
  jsonText "{'crv':'P-224','kty':'EC','x':'XGllaElhk2ussgeCy0Vd7qrxD2VsvPQAThPXog','y':'MzZr6Z0SncRjZHrRJi8yKj4nSdIJyCPdgv0dGA'}".

Definition numericText : list ascii := jsonText "{'kty':'OKP','y':1}".

(** ** The base64url codec: decoding inverts encoding *)

Local Open Scope N_scope.

Ltac Zify.zify_post_hook ::= Z.to_euclidean_division_equations.

Lemma decodeMap_encode (i : N) :
  i < 64 -> base64.decodeMap (base64.encode i) = i.
Proof.
  intro H.
  assert (Hn : forall n : nat, (n < 64)%nat ->
            base64.decodeMap (base64.encode (N.of_nat n)) = N.of_nat n).
  { intros n Hlt. do 64 (destruct n as [|n]; [reflexivity|]). lia. }
  rewrite <- (N2Nat.id i). apply Hn. lia.
Qed.

Lemma lor_shiftl_add (a b k : N) :
  b < 2 ^ k -> N.lor (N.shiftl a k) b = a * 2 ^ k + b.
Proof.
  intro H. rewrite N.shiftl_mul_pow2.
  destruct (N.eq_dec b 0) as [->|Hb].
  { now rewrite N.lor_0_r, N.add_0_r. }
  rewrite <- N.lxor_lor, <- N.add_nocarry_lxor; try reflexivity.
  all: apply N.bits_inj; intro n; rewrite N.land_spec, N.bits_0;
    destruct (N.ltb_spec n k) as [Hlt|Hge].
  all: try (rewrite N.mul_pow2_bits_low by assumption; reflexivity).
  all: rewrite (N.bits_above_log2 b n), andb_false_r; try reflexivity.
  all: apply N.log2_lt_pow2; [lia|].
  all: eapply N.lt_le_trans; [exact H|]; apply N.pow_le_mono_r; lia.
Qed.

Lemma uint_bound (b : ascii) : base64.uint b < 256.
Proof. apply N_ascii_bounded. Qed.

Lemma byte_uint (b : ascii) (v : N) :
  v mod 256 = base64.uint b -> base64.byte v = b.
Proof.
  unfold base64.byte, base64.uint; intro H.
  change 255 with (N.ones 8); rewrite N.land_ones.
  change (2 ^ 8) with 256. rewrite H. apply ascii_N_embedding.
Qed.

Lemma sextet_bound (v : N) : N.land v 0x3F < 64.
Proof.
  change 0x3F with (N.ones 6); rewrite N.land_ones.
  apply N.mod_lt; discriminate.
Qed.

Lemma lor_add (k a b : N) :
  a mod 2 ^ k = 0 -> b < 2 ^ k -> N.lor a b = a + b.
Proof.
  intros Ha Hb.
  assert (E : a = N.shiftl (a / 2 ^ k) k).
  { rewrite N.shiftl_mul_pow2.
    rewrite (N.div_mod a (2 ^ k)) at 1 by (apply N.pow_nonzero; discriminate).
    rewrite Ha; lia. }
  rewrite E at 1. rewrite lor_shiftl_add by assumption.
  rewrite <- N.shiftl_mul_pow2, <- E. reflexivity.
Qed.

Ltac pow2 :=
  change (2 ^ 6) with 64 in *; change (2 ^ 8) with 256 in *;
  change (2 ^ 12) with 4096 in *; change (2 ^ 16) with 65536 in *;
  change (2 ^ 18) with 262144 in *.

Ltac lor_step :=
  match goal with
  | |- context [N.lor ?a ?b] =>
      lazymatch a with
      | context [N.lor] => fail
      | _ =>
          first [ rewrite (@lor_add 6 a b) by (pow2; lia)
                | rewrite (@lor_add 8 a b) by (pow2; lia)
                | rewrite (@lor_add 12 a b) by (pow2; lia)
                | rewrite (@lor_add 16 a b) by (pow2; lia)
                | rewrite (@lor_add 18 a b) by (pow2; lia) ]
      end
  end.

Ltac lor_to_add := rewrite ?N.shiftl_mul_pow2; repeat lor_step.

Lemma quantum_full (b0 b1 b2 : ascii) :
  let val := N.lor (N.lor (N.shiftl (base64.uint b0) 16)
                          (N.shiftl (base64.uint b1) 8)) (base64.uint b2) in
  base64.quantumBytes (N.land (N.shiftr val 18) 0x3F)
    (N.land (N.shiftr val 12) 0x3F) (N.land (N.shiftr val 6) 0x3F)
    (N.land val 0x3F) 4 = [b0; b1; b2].
Proof.
  intro val. unfold base64.quantumBytes. cbn [Nat.sub firstn].
  pose proof (uint_bound b0) as H0. pose proof (uint_bound b1) as H1.
  pose proof (uint_bound b2) as H2.
  assert (Hval : val = base64.uint b0 * 65536 + base64.uint b1 * 256
                       + base64.uint b2).
  { unfold val. lor_to_add. reflexivity. }
  clearbody val.
  change 0x3F with (N.ones 6). rewrite !N.land_ones, !N.shiftr_div_pow2.
  lor_to_add. pow2.
  f_equal; [|f_equal; [|f_equal]]; apply byte_uint; lia.
Qed.

Lemma quantum_two (b0 b1 : ascii) :
  let val := N.lor (N.shiftl (base64.uint b0) 16)
                   (N.shiftl (base64.uint b1) 8) in
  base64.quantumBytes (N.land (N.shiftr val 18) 0x3F)
    (N.land (N.shiftr val 12) 0x3F) (N.land (N.shiftr val 6) 0x3F) 0 3
  = [b0; b1].
Proof.
  intro val. unfold base64.quantumBytes. cbn [Nat.sub firstn].
  pose proof (uint_bound b0) as H0. pose proof (uint_bound b1) as H1.
  assert (Hval : val = base64.uint b0 * 65536 + base64.uint b1 * 256).
  { unfold val. lor_to_add. reflexivity. }
  clearbody val.
  change 0x3F with (N.ones 6). rewrite !N.land_ones, !N.shiftr_div_pow2.
  lor_to_add. pow2.
  f_equal; [|f_equal]; apply byte_uint; lia.
Qed.

Lemma quantum_one (b0 : ascii) :
  let val := N.shiftl (base64.uint b0) 16 in
  base64.quantumBytes (N.land (N.shiftr val 18) 0x3F)
    (N.land (N.shiftr val 12) 0x3F) 0 0 2
  = [b0].
Proof.
  intro val. unfold base64.quantumBytes. cbn [Nat.sub firstn].
  pose proof (uint_bound b0) as H0.
  assert (Hval : val = base64.uint b0 * 65536).
  { unfold val. lor_to_add. reflexivity. }
  clearbody val.
  change 0x3F with (N.ones 6). rewrite !N.land_ones, !N.shiftr_div_pow2.
  lor_to_add. pow2.
  f_equal; apply byte_uint; lia.
Qed.

Lemma decodeLoop_cons (s : N) (tl : list ascii) (si : N) (dbuf : list N) :
  s < 64 ->
  base64.decodeLoop (base64.encode s :: tl) si dbuf =
  match dbuf with
  | [d0; d1; d2] =>
      let* tail := base64.decodeLoop tl (si + 1) [] in
      Ok (base64.quantumBytes d0 d1 d2 s 4 ++ tail)
  | _ => base64.decodeLoop tl (si + 1) (dbuf ++ [s])
  end.
Proof.
  intro H. cbn [base64.decodeLoop].
  rewrite (@decodeMap_encode s H).
  replace (s =? 255) with false by (symmetry; apply N.eqb_neq; lia).
  reflexivity.
Qed.

Lemma decodeLoop_Encode (src : list ascii) (si : N) :
  base64.decodeLoop (base64.Encode src) si [] = Ok src.
Proof.
  assert (H : forall n src si, (List.length src <= n)%nat ->
                base64.decodeLoop (base64.Encode src) si [] = Ok src).
  { clear src si; induction n as [|n IH]; intros src si Hlen.
    - destruct src; [reflexivity | simpl in Hlen; lia].
    - destruct src as [|b0 [|b1 [|b2 rest]]].
      + reflexivity.
      + cbn [base64.Encode].
        rewrite !decodeLoop_cons by apply sextet_bound.
        cbn [app base64.decodeLoop]. f_equal. apply quantum_one.
      + cbn [base64.Encode].
        rewrite !decodeLoop_cons by apply sextet_bound.
        cbn [app base64.decodeLoop]. f_equal. apply quantum_two.
      + cbn [base64.Encode].
        rewrite !decodeLoop_cons by apply sextet_bound.
        cbn [app]. rewrite IH by (simpl in Hlen; lia).
        cbn [bind]. f_equal. rewrite quantum_full. reflexivity. }
  apply (H (List.length src)); lia.
Qed.

Local Close Scope N_scope.

Lemma DecodeString_EncodeToString (src : list ascii) :
  base64.DecodeString (base64.EncodeToString src) = Ok src.
Proof.
  unfold base64.DecodeString, base64.EncodeToString.
  rewrite list_ascii_of_string_of_list_ascii. apply decodeLoop_Encode.
Qed.

(** ** The JSON codec: decoding a string inverts its encoding, up to the
    coercion to valid UTF-8 *)

Local Open Scope char_scope.
Local Open Scope N_scope.

Lemma decodeString_ascii (b : ascii) (X : list ascii) :
  json.uint b < 0x80 ->
  json.decodeString
    ((if json.htmlSafeSet b then [b] else json.escapeByte b) ++ X)
  = let* r := json.decodeString X in Ok (b :: fst r, snd r).
Proof.
  destruct b as [[] [] [] [] [] [] [] []]; intro H;
    try (exfalso; vm_compute in H; discriminate H); reflexivity.
Qed.

Lemma inRange_spec lo hi b :
  utf8.inRange lo hi b = true <-> lo <= utf8.uint b <= hi.
Proof.
  unfold utf8.inRange. rewrite andb_true_iff, !N.leb_le. reflexivity.
Qed.

Lemma acceptRange_cont s0 lo hi :
  utf8.acceptRange s0 = (lo, hi) -> 0x80 <= lo /\ hi <= 0xBF
  /\ (s0 = 0xF0 -> lo = 0x90) /\ (s0 = 0xE0 -> lo = 0xA0)
  /\ (s0 = 0xED -> hi = 0x9F) /\ (s0 = 0xF4 -> hi = 0x8F).
Proof.
  unfold utf8.acceptRange.
  repeat match goal with
         | |- context [?a =? ?b] => destruct (N.eqb_spec a b)
         end; intro H; injection H as <- <-; subst; repeat split;
    try discriminate; try (intros; lia).
Qed.

Lemma DecodeRune_high (b0 : ascii) (rest : list ascii) :
  0x80 <= utf8.uint b0 ->
  utf8.DecodeRune (b0 :: rest) = (utf8.RuneError, 1%nat)
  \/ (exists b1 r, rest = b1 :: r /\ utf8.cont b1
        /\ 0xC2 <= utf8.uint b0 < 0xE0
        /\ utf8.DecodeRune (b0 :: rest) = (utf8.rune2 b0 b1, 2%nat))
  \/ (exists b1 b2 r, rest = b1 :: b2 :: r /\ utf8.cont b1 /\ utf8.cont b2
        /\ 0xE0 <= utf8.uint b0 < 0xF0
        /\ (utf8.uint b0 = 0xE0 -> 0xA0 <= utf8.uint b1)
        /\ (utf8.uint b0 = 0xED -> utf8.uint b1 <= 0x9F)
        /\ utf8.DecodeRune (b0 :: rest) = (utf8.rune3 b0 b1 b2, 3%nat))
  \/ (exists b1 b2 b3 r, rest = b1 :: b2 :: b3 :: r
        /\ utf8.cont b1 /\ utf8.cont b2 /\ utf8.cont b3
        /\ 0xF0 <= utf8.uint b0 <= 0xF4
        /\ (utf8.uint b0 = 0xF0 -> 0x90 <= utf8.uint b1)
        /\ (utf8.uint b0 = 0xF4 -> utf8.uint b1 <= 0x8F)
        /\ utf8.DecodeRune (b0 :: rest) = (utf8.rune4 b0 b1 b2 b3, 4%nat)).
Proof.
  intro H. unfold utf8.DecodeRune.
  destruct (N.ltb_spec (utf8.uint b0) 0x80) as [Hlt|_]; [lia|].
  destruct (N.ltb_spec (utf8.uint b0) 0xC2) as [|H1]; [now left|].
  destruct (N.ltb_spec 0xF4 (utf8.uint b0)) as [|H2]; [now left|].
  cbn [orb].
  destruct (utf8.acceptRange (utf8.uint b0)) as [lo hi] eqn:Ha.
  apply acceptRange_cont in Ha.
  destruct Ha as (Hlo & Hhi & HF0 & HE0 & HED & HF4).
  destruct rest as [|b1 rest]; [now left|].
  destruct (utf8.inRange lo hi b1) eqn:R1; cbn [negb]; [|now left].
  apply inRange_spec in R1.
  assert (C1 : utf8.cont b1) by (unfold utf8.cont; lia).
  destruct (N.ltb_spec (utf8.uint b0) 0xE0) as [H3|H3].
  { right; left. exists b1, rest. repeat split; auto; lia. }
  destruct rest as [|b2 rest]; [now left|].
  destruct (utf8.inRange 0x80 0xBF b2) eqn:R2; cbn [negb]; [|now left].
  apply inRange_spec in R2.
  destruct (N.ltb_spec (utf8.uint b0) 0xF0) as [H4|H4].
  { right; right; left. exists b1, b2, rest.
    repeat split; auto; lia. }
  destruct rest as [|b3 rest]; [now left|].
  destruct (utf8.inRange 0x80 0xBF b3) eqn:R3; cbn [negb]; [|now left].
  apply inRange_spec in R3.
  right; right; right. exists b1, b2, b3, rest.
  repeat split; auto; lia.
Qed.

Ltac mask_to_mod :=
  change 0x3F with (N.ones 6) in *; change 0x1F with (N.ones 5) in *;
  change 0x0F with (N.ones 4) in *; change 0x07 with (N.ones 3) in *;
  rewrite ?N.land_ones in *;
  change (2 ^ 3) with 8 in *; change (2 ^ 4) with 16 in *;
  change (2 ^ 5) with 32 in *; change (2 ^ 6) with 64 in *.

Lemma rune2_value b0 b1 :
  utf8.rune2 b0 b1 = (utf8.uint b0 mod 32) * 64 + utf8.uint b1 mod 64.
Proof. unfold utf8.rune2. mask_to_mod. lor_to_add. reflexivity. Qed.

Lemma rune3_value b0 b1 b2 :
  utf8.rune3 b0 b1 b2 = (utf8.uint b0 mod 16) * 4096 + (utf8.uint b1 mod 64) * 64
                   + utf8.uint b2 mod 64.
Proof. unfold utf8.rune3. mask_to_mod. lor_to_add. reflexivity. Qed.

Lemma rune4_value b0 b1 b2 b3 :
  utf8.rune4 b0 b1 b2 b3 =
  (utf8.uint b0 mod 8) * 262144 + (utf8.uint b1 mod 64) * 4096
  + (utf8.uint b2 mod 64) * 64 + utf8.uint b3 mod 64.
Proof. unfold utf8.rune4. mask_to_mod. lor_to_add. reflexivity. Qed.

Lemma uint_inj (b : ascii) (n : N) : utf8.uint b = n -> b = ascii_of_N n.
Proof. intros <-. symmetry. apply ascii_N_embedding. Qed.

Lemma high_byte (b : ascii) :
  0x80 <= json.uint b ->
  Ascii.eqb b json.quote = false /\ Ascii.eqb b "\" = false
  /\ (json.uint b <? 0x20) = false.
Proof.
  destruct b as [[] [] [] [] [] [] [] []]; intro H;
    try (exfalso; vm_compute in H; apply H; reflexivity); repeat split.
Qed.

Lemma decodeString_raw (l X : list ascii) :
  Forall (fun b => 0x80 <= json.uint b) l ->
  json.decodeString (l ++ X)
  = let* r := json.decodeString X in Ok (l ++ fst r, snd r).
Proof.
  induction 1 as [|b l Hb Hl IH].
  - cbn [app]. destruct (json.decodeString X) as [[v r]|]; reflexivity.
  - cbn [app json.decodeString].
    destruct (@high_byte b Hb) as (-> & -> & ->). rewrite IH.
    destruct (json.decodeString X) as [[v r]|]; reflexivity.
Qed.

Lemma decodeString_replacement (X : list ascii) :
  json.decodeString (["\"; "u"; "f"; "f"; "f"; "d"] ++ X)
  = let* r := json.decodeString X in
    Ok (["239"; "191"; "189"] ++ fst r, snd r).
Proof. reflexivity. Qed.

Lemma decodeString_2028 (X : list ascii) :
  json.decodeString (["\"; "u"; "2"; "0"; "2"; "8"] ++ X)
  = let* r := json.decodeString X in
    Ok (["226"; "128"; "168"] ++ fst r, snd r).
Proof. reflexivity. Qed.

Lemma decodeString_2029 (X : list ascii) :
  json.decodeString (["\"; "u"; "2"; "0"; "2"; "9"] ++ X)
  = let* r := json.decodeString X in
    Ok (["226"; "128"; "169"] ++ fst r, snd r).
Proof. reflexivity. Qed.

Lemma rune3_line_separator b0 b1 b2 (n : N) :
  utf8.cont b1 -> utf8.cont b2 -> 0xE0 <= utf8.uint b0 < 0xF0 ->
  n = 0x2028 \/ n = 0x2029 ->
  utf8.rune3 b0 b1 b2 = n ->
  b0 = "226" /\ b1 = "128" /\ b2 = ascii_of_N (n - 0x2028 + 168).
Proof.
  unfold utf8.cont; intros C1 C2 H0 Hn H. rewrite rune3_value in H.
  assert (utf8.uint b0 = 226 /\ utf8.uint b1 = 128
          /\ utf8.uint b2 = n - 0x2028 + 168) as (E0 & E1 & E2) by lia.
  split; [exact (@uint_inj b0 226 E0)|].
  split; [exact (@uint_inj b1 128 E1) | exact (@uint_inj b2 _ E2)].
Qed.

Lemma DecodeRune_low (b0 : ascii) (rest : list ascii) :
  utf8.uint b0 < 0x80 ->
  utf8.DecodeRune (b0 :: rest) = (utf8.uint b0, 1%nat).
Proof.
  intro H. unfold utf8.DecodeRune.
  destruct (N.ltb_spec (utf8.uint b0) 0x80); [reflexivity | lia].
Qed.

Lemma decodeString_appendString (fuel : nat) :
  forall (p X : list ascii),
    (List.length p <= fuel)%nat ->
    json.decodeString (json.appendStringFuel fuel p ++ json.quote :: X)
    = Ok (utf8.coerceFuel fuel p, X).
Proof.
  induction fuel as [|fuel IH]; intros p X Hlen.
  - destruct p; [reflexivity | simpl in Hlen; lia].
  - destruct p as [|b0 rest]; [reflexivity|].
    cbn [json.appendStringFuel utf8.coerceFuel]. cbn [List.length] in Hlen.
    destruct (N.ltb_spec (json.uint b0) 0x80) as [Hlow|Hhigh].
    + rewrite <- app_assoc, decodeString_ascii by assumption.
      rewrite IH by lia. cbn [bind fst snd].
      rewrite DecodeRune_low by exact Hlow.
      replace (utf8.uint b0 =? utf8.RuneError) with false
        by (symmetry; apply N.eqb_neq; unfold utf8.RuneError;
            change (utf8.uint b0) with (json.uint b0); lia).
      reflexivity.
    + destruct (@DecodeRune_high b0 rest Hhigh)
        as [E|[(b1 & r & -> & C1 & H0 & E)
              |[(b1 & b2 & r & -> & C1 & C2 & H0 & _ & _ & E)
               |(b1 & b2 & b3 & r & -> & C1 & C2 & C3 & H0 & HF0 & _ & E)]]];
        rewrite E.
      * cbn [N.eqb Pos.eqb Nat.eqb andb utf8.RuneError].
        rewrite <- app_assoc, decodeString_replacement, IH by lia.
        reflexivity.
      * pose proof (rune2_value b0 b1) as V.
        replace ((utf8.rune2 b0 b1 =? 0x2028) || (utf8.rune2 b0 b1 =? 0x2029))
          with false
          by (symmetry; apply orb_false_iff; split; apply N.eqb_neq; lia).
        cbn [Nat.eqb andb firstn skipn]. rewrite andb_false_r.
        cbn [List.length] in Hlen.
        rewrite <- app_assoc.
        rewrite (@decodeString_raw [b0; b1])
          by (unfold utf8.cont in *; repeat constructor;
              first [apply C1 | exact Hhigh]).
        rewrite IH by lia. reflexivity.
      * cbn [Nat.eqb andb firstn skipn]. rewrite andb_false_r.
        cbn [List.length] in Hlen.
        destruct (N.eqb_spec (utf8.rune3 b0 b1 b2) 0x2028) as [E8|N8];
          [|destruct (N.eqb_spec (utf8.rune3 b0 b1 b2) 0x2029) as [E9|N9]];
          cbn [orb].
        -- destruct (@rune3_line_separator b0 b1 b2 0x2028)
             as (-> & -> & ->); auto.
           rewrite E8. change (json.hexDigit (N.land 8232 15)) with "8".
           rewrite <- app_assoc, decodeString_2028, IH by lia. reflexivity.
        -- destruct (@rune3_line_separator b0 b1 b2 0x2029)
             as (-> & -> & ->); auto.
           rewrite E9. change (json.hexDigit (N.land 8233 15)) with "9".
           rewrite <- app_assoc, decodeString_2029, IH by lia. reflexivity.
        -- rewrite <- app_assoc.
           rewrite (@decodeString_raw [b0; b1; b2])
             by (unfold utf8.cont in *; repeat constructor;
                 first [apply C1 | apply C2 | exact Hhigh]).
           rewrite IH by lia. reflexivity.
      * pose proof (rune4_value b0 b1 b2 b3) as V.
        assert (0x10000 <= utf8.rune4 b0 b1 b2 b3)
          by (unfold utf8.cont in *; fold (utf8.uint b0) in Hhigh; lia).
        replace ((utf8.rune4 b0 b1 b2 b3 =? 0x2028)
                 || (utf8.rune4 b0 b1 b2 b3 =? 0x2029)) with false
          by (symmetry; apply orb_false_iff; split; apply N.eqb_neq; lia).
        cbn [Nat.eqb andb firstn skipn]. rewrite andb_false_r.
        cbn [List.length] in Hlen.
        rewrite <- app_assoc.
        rewrite (@decodeString_raw [b0; b1; b2; b3])
          by (unfold utf8.cont in *; repeat constructor;
              first [apply C1 | apply C2 | apply C3 | exact Hhigh]).
        rewrite IH by lia. reflexivity.
Qed.

Local Close Scope N_scope.
Local Close Scope char_scope.

(** ** The JSON codec: decoding the text of a key object gives the key
    object back, coerced to valid UTF-8 *)

Local Open Scope char_scope.

Lemma DecodeRune_size (b0 : ascii) (rest : list ascii) :
  (1 <= snd (utf8.DecodeRune (b0 :: rest)))%nat.
Proof.
  destruct (N.ltb_spec (utf8.uint b0) 0x80) as [Hlow|Hhigh].
  - rewrite DecodeRune_low by assumption. apply le_n.
  - destruct (@DecodeRune_high b0 rest Hhigh)
      as [E|[(b1 & r & _ & _ & _ & E)
            |[(b1 & b2 & r & _ & _ & _ & _ & _ & _ & E)
             |(b1 & b2 & b3 & r & _ & _ & _ & _ & _ & _ & _ & E)]]];
      rewrite E; cbn [snd]; lia.
Qed.

Lemma coerceFuel_valid (fuel : nat) :
  forall p : list ascii,
    (List.length p <= fuel)%nat ->
    utf8.validFuel fuel p = true -> utf8.coerceFuel fuel p = p.
Proof.
  induction fuel as [|fuel IH]; intros p Hlen Hv.
  - destruct p; [reflexivity | discriminate Hv].
  - destruct p as [|b0 rest]; [reflexivity|].
    cbn [utf8.validFuel utf8.coerceFuel] in *.
    pose proof (DecodeRune_size b0 rest) as Hs.
    destruct (utf8.DecodeRune (b0 :: rest)) as [r size].
    cbn [snd] in Hs.
    destruct ((r =? utf8.RuneError)%N && (size =? 1)%nat); [discriminate|].
    rewrite IH; [apply firstn_skipn | | exact Hv].
    rewrite length_skipn. cbn [List.length] in *. lia.
Qed.

Lemma Coerce_valid (p : list ascii) :
  utf8.Valid p = true -> utf8.Coerce p = p.
Proof. intro H. apply coerceFuel_valid; [apply le_n | exact H]. Qed.

Lemma CoerceString_valid (s : string) :
  utf8.ValidString s = true -> utf8.CoerceString s = s.
Proof.
  unfold utf8.ValidString, utf8.CoerceString; intro H.
  rewrite Coerce_valid by exact H. apply string_of_list_ascii_of_string.
Qed.

Lemma coerceKey_valid (k : jwx.PublicKeyJWK) :
  jwx.validKey k = true -> jwx.coerceKey k = k.
Proof.
  destruct k as [kty crv x y n e use].
  unfold jwx.validKey, jwx.coerceKey, jwx.fields.
  cbn [forallb snd jwx.KTY jwx.CRV jwx.X jwx.Y jwx.N jwx.E jwx.Use].
  rewrite !andb_true_iff.
  intros (Hkty & Hcrv & Hx & Hy & Hn & He & Huse & _).
  now rewrite !CoerceString_valid.
Qed.

Lemma decodeValue_appendString (fuel : nat) (s : string) (X : list ascii) :
  json.decodeValue (S fuel) (json.appendString s ++ X)
  = Ok (json.Str (utf8.Coerce (list_ascii_of_string s)), X).
Proof.
  unfold json.appendString.
  cbn [app json.decodeValue json.skipWhiteSpace json.isSpace json.quote
       Ascii.eqb Bool.eqb orb].
  rewrite <- app_assoc. cbn [app].
  rewrite decodeString_appendString by apply le_n. reflexivity.
Qed.

Lemma decodeString_name (s : string) (X : list ascii) :
  json.decodeString (tl (json.appendString s) ++ X)
  = Ok (utf8.Coerce (list_ascii_of_string s), X).
Proof.
  unfold json.appendString. cbn [app tl].
  rewrite <- app_assoc. cbn [app].
  apply decodeString_appendString, le_n.
Qed.

Lemma appendString_quote (s : string) :
  json.appendString s = json.quote :: tl (json.appendString s).
Proof. reflexivity. Qed.

Lemma decodeValue_step (fuel : nat) (s : list ascii) :
  json.decodeValue (S fuel) s =
  match json.skipWhiteSpace s with
  | [] => Err JSONError
  | c :: s1 =>
      if Ascii.eqb c "{" then
        match json.startsWith "}" (json.skipWhiteSpace s1) with
        | Some s2 => Ok (json.Object [], s2)
        | None =>
            let* r := json.decodeMembers fuel (json.skipWhiteSpace s1) in
            Ok (json.Object (fst r), snd r)
        end
      else if Ascii.eqb c "[" then
        match json.startsWith "]" (json.skipWhiteSpace s1) with
        | Some s2 => Ok (json.Array [], s2)
        | None =>
            let* r := json.decodeElements fuel (json.skipWhiteSpace s1) in
            Ok (json.Array (fst r), snd r)
        end
      else if Ascii.eqb c json.quote then
        let* r := json.decodeString s1 in Ok (json.Str (fst r), snd r)
      else
        match json.literal "true" (c :: s1) with
        | Some r => Ok (json.Bool true, r)
        | None =>
        match json.literal "false" (c :: s1) with
        | Some r => Ok (json.Bool false, r)
        | None =>
        match json.literal "null" (c :: s1) with
        | Some r => Ok (json.Null, r)
        | None =>
            let* r := json.decodeNumber (c :: s1) in
            Ok (json.Number (fst r), snd r)
        end end end
  end.
Proof. reflexivity. Qed.

Lemma decodeMembers_step (fuel : nat) (s : list ascii) :
  json.decodeMembers (S fuel) s =
  match json.startsWith json.quote (json.skipWhiteSpace s) with
  | None => Err JSONError
  | Some s1 =>
      let* k := json.decodeString s1 in
      match json.startsWith ":" (json.skipWhiteSpace (snd k)) with
      | None => Err JSONError
      | Some s2 =>
          let* v := json.decodeValue fuel s2 in
          match json.startsWith "," (json.skipWhiteSpace (snd v)) with
          | Some s3 =>
              let* r := json.decodeMembers fuel s3 in
              Ok ((fst k, fst v) :: fst r, snd r)
          | None =>
              match json.startsWith "}" (json.skipWhiteSpace (snd v)) with
              | Some s3 => Ok ([(fst k, fst v)], s3)
              | None => Err JSONError
              end
          end
      end
  end.
Proof. reflexivity. Qed.

Lemma decodeElements_step (fuel : nat) (s : list ascii) :
  json.decodeElements (S fuel) s =
  let* v := json.decodeValue fuel s in
  match json.startsWith "," (json.skipWhiteSpace (snd v)) with
  | Some s1 =>
      let* r := json.decodeElements fuel s1 in
      Ok (fst v :: fst r, snd r)
  | None =>
      match json.startsWith "]" (json.skipWhiteSpace (snd v)) with
      | Some s1 => Ok ([fst v], s1)
      | None => Err JSONError
      end
  end.
Proof. reflexivity. Qed.

Ltac norm_app := repeat (progress (rewrite <- ?app_assoc; cbn [app])).

Ltac json_step :=
  cbn [app bind fst snd json.skipWhiteSpace json.isSpace json.startsWith
       json.quote Ascii.eqb Bool.eqb orb negb].

(** One member, followed by a comma and the next members. *)
Lemma decodeMembers_comma (fuel : nat) (name v : string) (s3 : list ascii) :
  json.decodeMembers (S (S fuel))
    (json.appendString name ++ ":" :: json.appendString v ++ "," :: s3)
  = let* r := json.decodeMembers (S fuel) s3 in
    Ok ((utf8.Coerce (list_ascii_of_string name),
         json.Str (utf8.Coerce (list_ascii_of_string v))) :: fst r, snd r).
Proof.
  rewrite decodeMembers_step.
  rewrite (appendString_quote name). json_step.
  rewrite decodeString_name. json_step.
  rewrite decodeValue_appendString. reflexivity.
Qed.

(** The last member, followed by the closing brace. *)
Lemma decodeMembers_brace (fuel : nat) (name v : string) (s3 : list ascii) :
  json.decodeMembers (S (S fuel))
    (json.appendString name ++ ":" :: json.appendString v ++ "}" :: s3)
  = Ok ([(utf8.Coerce (list_ascii_of_string name),
          json.Str (utf8.Coerce (list_ascii_of_string v)))], s3).
Proof.
  rewrite decodeMembers_step.
  rewrite (appendString_quote name). json_step.
  rewrite decodeString_name. json_step.
  rewrite decodeValue_appendString. reflexivity.
Qed.

Lemma present_cons (n w : string) (fs : list (string * string)) :
  jwx.present ((n, w) :: fs)
  = if String.eqb w "" then jwx.present fs else (n, w) :: jwx.present fs.
Proof. unfold jwx.present; cbn [filter snd]. now destruct (String.eqb w ""). Qed.

(** The members after the first one. *)
Lemma decodeMembers_appendMembers (fs : list (string * string)) :
  forall (fuel : nat) (name v : string) (Z : list ascii),
    (List.length (jwx.present fs) + 1 < fuel)%nat ->
    json.decodeMembers fuel
      (json.appendString name ++ ":" :: json.appendString v
         ++ jwx.appendMembers false fs ++ "}" :: Z)
    = Ok ((utf8.Coerce (list_ascii_of_string name),
           json.Str (utf8.Coerce (list_ascii_of_string v)))
            :: jwx.membersOf fs, Z).
Proof.
  induction fs as [|[n w] fs IH]; intros fuel name v Z Hfuel.
  - destruct fuel as [|[|fuel]]; [cbn in Hfuel; lia | cbn in Hfuel; lia |].
    apply decodeMembers_brace.
  - cbn [jwx.appendMembers]. unfold jwx.membersOf.
    rewrite present_cons in *.
    destruct (String.eqb w "") eqn:Ew.
    + apply IH. exact Hfuel.
    + cbn [List.length] in Hfuel.
      destruct fuel as [|[|fuel]]; [lia | lia |].
      norm_app. rewrite decodeMembers_comma.
      rewrite (IH (S fuel) n w Z) by lia.
      reflexivity.
Qed.

(** The object of a list of string members decodes to the members
    that are not empty, each coerced to valid UTF-8. *)
Lemma decodeValue_appendMembers (fs : list (string * string)) :
  forall (fuel : nat) (Z : list ascii),
    (List.length (jwx.present fs) + 1 < fuel)%nat ->
    json.decodeValue fuel ("{" :: jwx.appendMembers true fs ++ "}" :: Z)
    = Ok (json.Object (jwx.membersOf fs), Z).
Proof.
  induction fs as [|[n w] fs IH]; intros fuel Z Hfuel.
  - destruct fuel as [|fuel]; [cbn in Hfuel; lia|]. reflexivity.
  - cbn [jwx.appendMembers]. unfold jwx.membersOf.
    rewrite present_cons in *.
    destruct (String.eqb w "") eqn:Ew.
    + apply IH. exact Hfuel.
    + cbn [List.length] in Hfuel.
      destruct fuel as [|fuel]; [lia|].
      rewrite (appendString_quote n).
      cbn [app json.decodeValue json.skipWhiteSpace json.isSpace json.quote
           Ascii.eqb Bool.eqb orb].
      norm_app.
      match goal with
      | |- context [json.decodeMembers fuel ?arg] =>
          change arg with
            (json.appendString n ++ ":" :: json.appendString w
               ++ jwx.appendMembers false fs ++ "}" :: Z)
      end.
      rewrite (@decodeMembers_appendMembers fs fuel n w Z) by lia.
      reflexivity.
Qed.

Lemma appendMembers_length (fs : list (string * string)) (first : bool) :
  (List.length (jwx.present fs) <= List.length (jwx.appendMembers first fs))%nat.
Proof.
  revert first; induction fs as [|[n w] fs IH]; intro first; [apply le_n|].
  cbn [jwx.appendMembers]. rewrite present_cons.
  destruct (String.eqb w ""); [apply IH|].
  rewrite !length_app. unfold json.appendString at 1.
  cbn [List.length app]. specialize (IH false). lia.
Qed.

(** The fields that the members of a key object set, starting from the
    zero value. *)
Lemma assignAll_membersOf (k : jwx.PublicKeyJWK) :
  jwx.assignAll jwx.zero (jwx.membersOf (jwx.fields k)) = Ok (jwx.coerceKey k).
Proof.
  destruct k as [kty crv x y n e use].
  unfold jwx.membersOf, jwx.fields.
  cbn [jwx.KTY jwx.CRV jwx.X jwx.Y jwx.N jwx.E jwx.Use].
  rewrite !present_cons. unfold jwx.present; cbn [filter].
  destruct (String.eqb_spec kty ""); destruct (String.eqb_spec crv "");
    destruct (String.eqb_spec x ""); destruct (String.eqb_spec y "");
    destruct (String.eqb_spec n ""); destruct (String.eqb_spec e "");
    destruct (String.eqb_spec use ""); subst; reflexivity.
Qed.

Lemma Ok_inj {T : Type} (a b : T) : Ok a = Ok b -> a = b.
Proof. intro H; injection H; auto. Qed.

Lemma Unmarshal_appendMembers (k : jwx.PublicKeyJWK) :
  jwx.Unmarshal ("{" :: jwx.appendMembers true (jwx.fields k) ++ ["}"])
    jwx.zero
  = Ok (jwx.coerceKey k).
Proof.
  unfold jwx.Unmarshal, json.decode.
  rewrite decodeValue_appendMembers.
  - cbn [bind fst snd json.skipWhiteSpace]. apply assignAll_membersOf.
  - pose proof (appendMembers_length (jwx.fields k) true).
    cbn [List.length]. rewrite length_app. cbn [List.length]. lia.
Qed.

(** ** The JSON decoder and its fuel: a value decoded with some fuel is
    decoded with any larger fuel *)

Lemma bind_Ok {A B : Type} (r : result A) (k : A -> result B) (v : B) :
  bind r k = Ok v -> exists a, r = Ok a /\ k a = Ok v.
Proof. destruct r as [a|]; [eauto | discriminate]. Qed.

Lemma decode_fuel_step (n : nat) :
  (forall s r, json.decodeValue n s = Ok r -> json.decodeValue (S n) s = Ok r)
  /\ (forall s r, json.decodeMembers n s = Ok r ->
                  json.decodeMembers (S n) s = Ok r)
  /\ (forall s r, json.decodeElements n s = Ok r ->
                  json.decodeElements (S n) s = Ok r).
Proof.
  induction n as [|n (IHv & IHm & IHe)].
  - repeat split; intros; discriminate.
  - split; [|split]; intros s r H.
    + rewrite decodeValue_step in *.
      destruct (json.skipWhiteSpace s) as [|c s1]; [discriminate|].
      destruct (Ascii.eqb c "{").
      { destruct (json.startsWith "}" (json.skipWhiteSpace s1));
          [exact H|].
        apply bind_Ok in H; destruct H as (a & Ha & Hk).
        rewrite (IHm _ _ Ha); exact Hk. }
      destruct (Ascii.eqb c "["); [|exact H].
      destruct (json.startsWith "]" (json.skipWhiteSpace s1)); [exact H|].
      apply bind_Ok in H; destruct H as (a & Ha & Hk).
      rewrite (IHe _ _ Ha); exact Hk.
    + rewrite decodeMembers_step in *.
      destruct (json.startsWith json.quote (json.skipWhiteSpace s))
        as [s1|]; [|discriminate].
      destruct (json.decodeString s1) as [k|]; [|discriminate].
      cbn [bind] in *.
      destruct (json.startsWith ":" (json.skipWhiteSpace (snd k)))
        as [s2|]; [|discriminate].
      apply bind_Ok in H; destruct H as (v & Hv & H).
      rewrite (IHv _ _ Hv); cbn [bind].
      destruct (json.startsWith "," (json.skipWhiteSpace (snd v)));
        [|exact H].
      apply bind_Ok in H; destruct H as (a & Ha & Hk).
      rewrite (IHm _ _ Ha); exact Hk.
    + rewrite decodeElements_step in *.
      apply bind_Ok in H; destruct H as (v & Hv & H).
      rewrite (IHv _ _ Hv); cbn [bind].
      destruct (json.startsWith "," (json.skipWhiteSpace (snd v)));
        [|exact H].
      apply bind_Ok in H; destruct H as (a & Ha & Hk).
      rewrite (IHe _ _ Ha); exact Hk.
Qed.

Lemma decodeValue_fuel_mono (n m : nat) (s : list ascii)
      (r : json.value * list ascii) :
  n <= m -> json.decodeValue n s = Ok r -> json.decodeValue m s = Ok r.
Proof.
  induction 1 as [|m Hle IH]; intro H; [exact H|].
  now apply decode_fuel_step, IH.
Qed.

(** ** The fuel of [json.decode] is enough *)

Lemma skipWhiteSpace_length (s : list ascii) :
  List.length (json.skipWhiteSpace s) <= List.length s.
Proof.
  induction s as [|c s IH]; [apply le_n|]. cbn [json.skipWhiteSpace].
  destruct (json.isSpace c); cbn [List.length]; lia.
Qed.

Lemma startsWith_length (c : ascii) (s r : list ascii) :
  json.startsWith c s = Some r -> List.length s = S (List.length r).
Proof.
  destruct s as [|c' s]; [discriminate|]. cbn [json.startsWith].
  destruct (Ascii.eqb c' c); [|discriminate]. now intros [= ->].
Qed.

Lemma literal_length (lit : string) :
  forall s r, json.literal lit s = Some r ->
              List.length r + String.length lit = List.length s.
Proof.
  induction lit as [|l lit IH]; intros s r H; cbn [json.literal] in H.
  - injection H as <-. cbn; lia.
  - destruct (json.startsWith l s) as [r'|] eqn:E; [|discriminate].
    apply startsWith_length in E. apply IH in H. cbn [String.length]. lia.
Qed.

Lemma decodeString_length_le (n : nat) :
  forall s r, List.length s <= n -> json.decodeString s = Ok r ->
              List.length (snd r) < List.length s.
Proof.
  induction n as [|n IH]; intros s r Hn H.
  - destruct s; [discriminate | cbn in Hn; lia].
  - destruct s as [|c s1]; [discriminate|].
    cbn [json.decodeString] in H. cbn [List.length] in *.
    destruct (Ascii.eqb c json.quote).
    { apply Ok_inj in H; subst r; cbn [snd]; lia. }
    destruct (Ascii.eqb c "\").
    2:{ destruct (json.uint c <? 32)%N; [discriminate|].
        apply bind_Ok in H; destruct H as (a & Ha & Hk).
        apply IH in Ha; [|lia]. apply Ok_inj in Hk; subst r; cbn [snd]; lia. }
    destruct s1 as [|e s2]; [discriminate|]. cbn [List.length] in *.
    destruct (json.simpleEscape e) as [esc|].
    { apply bind_Ok in H; destruct H as (a & Ha & Hk).
      apply IH in Ha; [|lia]. apply Ok_inj in Hk; subst r; cbn [snd]; lia. }
    destruct (negb (Ascii.eqb e "u")); [discriminate|].
    destruct s2 as [|h1 [|h2 [|h3 [|h4 s3]]]]; try discriminate.
    cbn [List.length] in *.
    destruct (json.getu4 h1 h2 h3 h4) as [rr|]; [|discriminate].
    assert (Hsingle : forall r',
      (let* r0 := json.decodeString s3 in
       Ok (utf8.EncodeRune rr ++ fst r0, snd r0)) = Ok r' ->
      List.length (snd r') < S (S (S (S (S (S (List.length s3))))))).
    { intros r' H'. apply bind_Ok in H'; destruct H' as (a & Ha & Hk).
      apply IH in Ha; [|lia]. apply Ok_inj in Hk; subst r'; cbn [snd]; lia. }
    destruct (json.isHighSurrogate rr); [|now apply Hsingle].
    destruct s3 as [|b [|u [|l1 [|l2 [|l3 [|l4 s4]]]]]];
      try (now apply Hsingle).
    destruct (json.getu4 l1 l2 l3 l4) as [rr1|]; [|now apply Hsingle].
    destruct (Ascii.eqb b "\" && Ascii.eqb u "u" && json.isLowSurrogate rr1);
      [|now apply Hsingle].
    apply bind_Ok in H; destruct H as (a & Ha & Hk).
    apply IH in Ha; [|cbn [List.length] in *; lia].
    apply Ok_inj in Hk; subst r; cbn [snd List.length] in *; lia.
Qed.

Lemma decodeString_length (s : list ascii) (r : list ascii * list ascii) :
  json.decodeString s = Ok r -> List.length (snd r) < List.length s.
Proof. apply (@decodeString_length_le (List.length s)), le_n. Qed.

Lemma digits_length (s : list ascii) :
  List.length (snd (json.digits s)) <= List.length s.
Proof.
  induction s as [|c s IH]; [apply le_n|]. cbn [json.digits].
  destruct (json.isDigit c); [|apply le_n].
  destruct (json.digits s) as [ds r]; cbn [snd List.length] in *; lia.
Qed.

Lemma decodeNumber_length (s : list ascii) (r : list ascii * list ascii) :
  json.decodeNumber s = Ok r -> List.length (snd r) < List.length s.
Proof.
  unfold json.decodeNumber.
  assert (Hs : exists sign s1,
            match json.startsWith "-" s with
            | Some r0 => (["-"], r0)
            | None => ([], s)
            end = (sign, s1) /\ List.length s1 <= List.length s).
  { destruct (json.startsWith "-" s) as [r0|] eqn:E; eauto.
    apply startsWith_length in E. exists ["-"], r0. split; [reflexivity|lia]. }
  destruct Hs as (sign & s1 & -> & Hs1).
  intro H. apply bind_Ok in H. destruct H as (int & Hint & H).
  assert (Hi : List.length (snd int) < List.length s1).
  { destruct s1 as [|d r0]; [discriminate|].
    destruct (Ascii.eqb d "0").
    - apply Ok_inj in Hint; subst int; cbn; lia.
    - destruct (json.isDigit d); [|discriminate].
      pose proof (digits_length r0) as Hd.
      destruct (json.digits r0) as [ds r']. apply Ok_inj in Hint; subst int.
      cbn [snd List.length] in *; lia. }
  apply bind_Ok in H. destruct H as (frac & Hfrac & H).
  assert (Hf : List.length (snd frac) <= List.length (snd int)).
  { destruct (json.startsWith "." (snd int)) as [r0|] eqn:E.
    - apply startsWith_length in E. pose proof (digits_length r0) as Hd.
      destruct (json.digits r0) as [[|d ds] r']; [discriminate|].
      apply Ok_inj in Hfrac; subst frac. cbn [snd] in *; lia.
    - apply Ok_inj in Hfrac; subst frac. apply le_n. }
  apply bind_Ok in H. destruct H as (exp & Hexp & H).
  assert (He : List.length (snd exp) <= List.length (snd frac)).
  { destruct (snd frac) as [|e r0].
    - apply Ok_inj in Hexp; subst exp. apply le_n.
    - destruct (Ascii.eqb e "e" || Ascii.eqb e "E").
      + assert (Hr : exists esign r1,
                  match r0 with
                  | c :: r' =>
                      if Ascii.eqb c "+" || Ascii.eqb c "-"
                      then ([c], r') else ([], r0)
                  | [] => ([], r0)
                  end = (esign, r1) /\ List.length r1 <= List.length r0).
        { destruct r0 as [|c r']; [eauto|].
          destruct (Ascii.eqb c "+" || Ascii.eqb c "-"); eauto.
          exists [c], r'; split; [reflexivity | cbn; lia]. }
        destruct Hr as (esign & r1 & Er & Hr1). rewrite Er in Hexp.
        pose proof (digits_length r1) as Hd.
        destruct (json.digits r1) as [[|d ds] r']; [discriminate|].
        apply Ok_inj in Hexp; subst exp. cbn [snd List.length] in *; lia.
      + apply Ok_inj in Hexp; subst exp. apply le_n. }
  apply Ok_inj in H; subst r. cbn [snd]. lia.
Qed.

Lemma decode_length (n : nat) :
  (forall s r, json.decodeValue n s = Ok r ->
               List.length (snd r) < List.length s)
  /\ (forall s r, json.decodeMembers n s = Ok r ->
                  List.length (snd r) < List.length s)
  /\ (forall s r, json.decodeElements n s = Ok r ->
                  List.length (snd r) < List.length s).
Proof.
  induction n as [|n (IHv & IHm & IHe)].
  - repeat split; intros; discriminate.
  - split; [|split]; intros s r H.
    + rewrite decodeValue_step in H.
      pose proof (skipWhiteSpace_length s) as Hs.
      destruct (json.skipWhiteSpace s) as [|c s1]; [discriminate|].
      pose proof (skipWhiteSpace_length s1) as Hs1.
      cbn [List.length] in Hs.
      destruct (Ascii.eqb c "{").
      { destruct (json.startsWith "}" (json.skipWhiteSpace s1))
          as [s2|] eqn:E.
        - apply startsWith_length in E. apply Ok_inj in H; subst r.
          cbn [snd]; lia.
        - apply bind_Ok in H; destruct H as (a & Ha & Hk).
          apply IHm in Ha. apply Ok_inj in Hk; subst r. cbn [snd]; lia. }
      destruct (Ascii.eqb c "[").
      { destruct (json.startsWith "]" (json.skipWhiteSpace s1))
          as [s2|] eqn:E.
        - apply startsWith_length in E. apply Ok_inj in H; subst r.
          cbn [snd]; lia.
        - apply bind_Ok in H; destruct H as (a & Ha & Hk).
          apply IHe in Ha. apply Ok_inj in Hk; subst r. cbn [snd]; lia. }
      destruct (Ascii.eqb c json.quote).
      { apply bind_Ok in H; destruct H as (a & Ha & Hk).
        apply decodeString_length in Ha.
        apply Ok_inj in Hk; subst r. cbn [snd]; lia. }
      destruct (json.literal "true" (c :: s1)) as [r0|] eqn:Et.
      { apply literal_length in Et. apply Ok_inj in H; subst r.
        cbn [snd String.length List.length] in *; lia. }
      destruct (json.literal "false" (c :: s1)) as [r0|] eqn:Ef.
      { apply literal_length in Ef. apply Ok_inj in H; subst r.
        cbn [snd String.length List.length] in *; lia. }
      destruct (json.literal "null" (c :: s1)) as [r0|] eqn:En.
      { apply literal_length in En. apply Ok_inj in H; subst r.
        cbn [snd String.length List.length] in *; lia. }
      apply bind_Ok in H; destruct H as (a & Ha & Hk).
      apply decodeNumber_length in Ha.
      apply Ok_inj in Hk; subst r. cbn [snd List.length] in *; lia.
    + rewrite decodeMembers_step in H.
      pose proof (skipWhiteSpace_length s) as Hs.
      destruct (json.startsWith json.quote (json.skipWhiteSpace s))
        as [s1|] eqn:E1; [|discriminate].
      apply startsWith_length in E1.
      apply bind_Ok in H; destruct H as (k & Hk & H).
      apply decodeString_length in Hk.
      pose proof (skipWhiteSpace_length (snd k)) as Hsk.
      destruct (json.startsWith ":" (json.skipWhiteSpace (snd k)))
        as [s2|] eqn:E2; [|discriminate].
      apply startsWith_length in E2.
      apply bind_Ok in H; destruct H as (v & Hv & H).
      apply IHv in Hv.
      pose proof (skipWhiteSpace_length (snd v)) as Hsv.
      destruct (json.startsWith "," (json.skipWhiteSpace (snd v)))
        as [s3|] eqn:E3.
      * apply startsWith_length in E3.
        apply bind_Ok in H; destruct H as (a & Ha & H).
        apply IHm in Ha. apply Ok_inj in H; subst r. cbn [snd]; lia.
      * destruct (json.startsWith "}" (json.skipWhiteSpace (snd v)))
          as [s3|] eqn:E4; [|discriminate].
        apply startsWith_length in E4.
        apply Ok_inj in H; subst r. cbn [snd]; lia.
    + rewrite decodeElements_step in H.
      apply bind_Ok in H; destruct H as (v & Hv & H).
      apply IHv in Hv.
      pose proof (skipWhiteSpace_length (snd v)) as Hsv.
      destruct (json.startsWith "," (json.skipWhiteSpace (snd v)))
        as [s3|] eqn:E3.
      * apply startsWith_length in E3.
        apply bind_Ok in H; destruct H as (a & Ha & H).
        apply IHe in Ha. apply Ok_inj in H; subst r. cbn [snd]; lia.
      * destruct (json.startsWith "]" (json.skipWhiteSpace (snd v)))
          as [s3|] eqn:E4; [|discriminate].
        apply startsWith_length in E4.
        apply Ok_inj in H; subst r. cbn [snd]; lia.
Qed.

Lemma decodeMembers_fuel_mono (n m : nat) (s : list ascii)
      (r : list (list ascii * json.value) * list ascii) :
  n <= m -> json.decodeMembers n s = Ok r -> json.decodeMembers m s = Ok r.
Proof.
  induction 1 as [|m Hle IH]; intro H; [exact H|].
  now apply decode_fuel_step, IH.
Qed.

Lemma decodeElements_fuel_mono (n m : nat) (s : list ascii)
      (r : list json.value * list ascii) :
  n <= m -> json.decodeElements n s = Ok r -> json.decodeElements m s = Ok r.
Proof.
  induction 1 as [|m Hle IH]; intro H; [exact H|].
  now apply decode_fuel_step, IH.
Qed.

Lemma decode_fuel_bound (n : nat) :
  (forall s r, json.decodeValue n s = Ok r ->
     json.decodeValue (2 * (List.length s - List.length (snd r)) - 1) s
     = Ok r)
  /\ (forall s r, json.decodeMembers n s = Ok r ->
        json.decodeMembers (2 * (List.length s - List.length (snd r))) s
        = Ok r)
  /\ (forall s r, json.decodeElements n s = Ok r ->
        json.decodeElements (2 * (List.length s - List.length (snd r))) s
        = Ok r).
Proof.
  induction n as [|n (IHv & IHm & IHe)].
  - repeat split; intros; discriminate.
  - split; [|split]; intros s r H.
    + pose proof (proj1 (decode_length (S n)) _ _ H) as Hlen.
      replace (2 * (List.length s - List.length (snd r)) - 1)
        with (S (2 * (List.length s - List.length (snd r)) - 2)) by lia.
      rewrite decodeValue_step in *.
      pose proof (skipWhiteSpace_length s) as Hs.
      destruct (json.skipWhiteSpace s) as [|c s1]; [discriminate|].
      pose proof (skipWhiteSpace_length s1) as Hs1.
      cbn [List.length] in Hs.
      destruct (Ascii.eqb c "{").
      { destruct (json.startsWith "}" (json.skipWhiteSpace s1));
          [exact H|].
        apply bind_Ok in H; destruct H as (a & Ha & Hk).
        pose proof (proj1 (proj2 (decode_length n)) _ _ Ha) as Hla.
        apply IHm in Ha. apply Ok_inj in Hk; subst r; cbn [snd] in *.
        eapply decodeMembers_fuel_mono in Ha;
          [rewrite Ha; reflexivity | lia]. }
      destruct (Ascii.eqb c "["); [|exact H].
      destruct (json.startsWith "]" (json.skipWhiteSpace s1)); [exact H|].
      apply bind_Ok in H; destruct H as (a & Ha & Hk).
      pose proof (proj2 (proj2 (decode_length n)) _ _ Ha) as Hla.
      apply IHe in Ha. apply Ok_inj in Hk; subst r; cbn [snd] in *.
      eapply decodeElements_fuel_mono in Ha;
        [rewrite Ha; reflexivity | lia].
    + pose proof (proj1 (proj2 (decode_length (S n))) _ _ H) as Hlen.
      replace (2 * (List.length s - List.length (snd r)))
        with (S (2 * (List.length s - List.length (snd r)) - 1)) by lia.
      rewrite decodeMembers_step in *.
      pose proof (skipWhiteSpace_length s) as Hs.
      destruct (json.startsWith json.quote (json.skipWhiteSpace s))
        as [s1|] eqn:E1; [|discriminate].
      pose proof (startsWith_length _ _ E1) as L1.
      destruct (json.decodeString s1) as [k|] eqn:Hk; [|discriminate].
      cbn [bind] in *. apply decodeString_length in Hk.
      pose proof (skipWhiteSpace_length (snd k)) as Hsk.
      destruct (json.startsWith ":" (json.skipWhiteSpace (snd k)))
        as [s2|] eqn:E2; [|discriminate].
      pose proof (startsWith_length _ _ E2) as L2.
      apply bind_Ok in H; destruct H as (v & Hv & H).
      pose proof (proj1 (decode_length n) _ _ Hv) as Hlv.
      pose proof (skipWhiteSpace_length (snd v)) as Hsv.
      apply IHv in Hv.
      destruct (json.startsWith "," (json.skipWhiteSpace (snd v)))
        as [s3|] eqn:E3.
      * pose proof (startsWith_length _ _ E3) as L3.
        apply bind_Ok in H; destruct H as (a & Ha & H).
        pose proof (proj1 (proj2 (decode_length n)) _ _ Ha) as Hla.
        apply IHm in Ha. apply Ok_inj in H; subst r; cbn [snd] in *.
        eapply decodeValue_fuel_mono in Hv; [rewrite Hv | lia]; cbn [bind].
        rewrite E3.
        eapply decodeMembers_fuel_mono in Ha;
          [rewrite Ha; reflexivity | lia].
      * destruct (json.startsWith "}" (json.skipWhiteSpace (snd v)))
          as [s3|] eqn:E4; [|discriminate].
        pose proof (startsWith_length _ _ E4) as L4.
        apply Ok_inj in H; subst r; cbn [snd] in *.
        eapply decodeValue_fuel_mono in Hv; [rewrite Hv | lia]; cbn [bind].
        rewrite E3, E4. reflexivity.
    + pose proof (proj2 (proj2 (decode_length (S n))) _ _ H) as Hlen.
      replace (2 * (List.length s - List.length (snd r)))
        with (S (2 * (List.length s - List.length (snd r)) - 1)) by lia.
      rewrite decodeElements_step in *.
      apply bind_Ok in H; destruct H as (v & Hv & H).
      pose proof (proj1 (decode_length n) _ _ Hv) as Hlv.
      pose proof (skipWhiteSpace_length (snd v)) as Hsv.
      apply IHv in Hv.
      destruct (json.startsWith "," (json.skipWhiteSpace (snd v)))
        as [s3|] eqn:E3.
      * pose proof (startsWith_length _ _ E3) as L3.
        apply bind_Ok in H; destruct H as (a & Ha & H).
        pose proof (proj2 (proj2 (decode_length n)) _ _ Ha) as Hla.
        apply IHe in Ha. apply Ok_inj in H; subst r; cbn [snd] in *.
        eapply decodeValue_fuel_mono in Hv; [rewrite Hv | lia]; cbn [bind].
        rewrite E3.
        eapply decodeElements_fuel_mono in Ha;
          [rewrite Ha; reflexivity | lia].
      * destruct (json.startsWith "]" (json.skipWhiteSpace (snd v)))
          as [s3|] eqn:E4; [|discriminate].
        pose proof (startsWith_length _ _ E4) as L4.
        apply Ok_inj in H; subst r; cbn [snd] in *.
        eapply decodeValue_fuel_mono in Hv; [rewrite Hv | lia]; cbn [bind].
        rewrite E3, E4. reflexivity.
Qed.

(** The fuel that [json.decode] gives is enough: a text that decodes
    with some fuel decodes with that of [json.decode]. *)
Lemma decode_fuel_enough (n : nat) (data : list ascii) (v : json.value)
        (rest : list ascii) :
  json.decodeValue n data = Ok (v, rest) ->
  json.skipWhiteSpace rest = [] ->
  json.decode data = Ok v.
Proof.
  intros H Hrest. unfold json.decode.
  apply decode_fuel_bound in H.
  eapply decodeValue_fuel_mono in H; [rewrite H | cbn [snd]; lia].
  cbn [bind fst snd]. now rewrite Hrest.
Qed.

(** ** The fuel of the string encoder and of the validity test *)

Lemma skipn_DecodeRune_length (b0 : ascii) (rest : list ascii) :
  List.length (skipn (snd (utf8.DecodeRune (b0 :: rest))) (b0 :: rest))
  <= List.length rest.
Proof.
  pose proof (DecodeRune_size b0 rest) as H.
  rewrite length_skipn. cbn [List.length]. lia.
Qed.

Lemma appendStringFuel_step (fuel : nat) (b0 : ascii) (rest : list ascii) :
  json.appendStringFuel (S fuel) (b0 :: rest) =
  if (json.uint b0 <? 0x80)%N then
    (if json.htmlSafeSet b0 then [b0] else json.escapeByte b0)
      ++ json.appendStringFuel fuel rest
  else
    let (c, size) := utf8.DecodeRune (b0 :: rest) in
    if (c =? utf8.RuneError)%N && (size =? 1)%nat then
      ["\"; "u"; "f"; "f"; "f"; "d"] ++ json.appendStringFuel fuel rest
    else if (c =? 0x2028)%N || (c =? 0x2029)%N then
      ["\"; "u"; "2"; "0"; "2"; json.hexDigit (N.land c 0xF)]
        ++ json.appendStringFuel fuel (skipn size (b0 :: rest))
    else
      firstn size (b0 :: rest)
        ++ json.appendStringFuel fuel (skipn size (b0 :: rest)).
Proof. reflexivity. Qed.

(** The fuel of [json.appendString] is enough: more fuel gives the same
    text. *)
Lemma appendStringFuel_more (fuel : nat) :
  forall p, List.length p <= fuel ->
            json.appendStringFuel (S fuel) p = json.appendStringFuel fuel p.
Proof.
  induction fuel as [|fuel IH]; intros p Hlen.
  - destruct p; [reflexivity | cbn in Hlen; lia].
  - destruct p as [|b0 rest]; [reflexivity|].
    cbn [List.length] in Hlen. rewrite !appendStringFuel_step.
    pose proof (skipn_DecodeRune_length b0 rest) as Hs.
    destruct (utf8.DecodeRune (b0 :: rest)) as [c size]. cbn [snd] in Hs.
    rewrite !IH by lia. reflexivity.
Qed.

Lemma validFuel_step (fuel : nat) (b0 : ascii) (rest : list ascii) :
  utf8.validFuel (S fuel) (b0 :: rest) =
  let (r, size) := utf8.DecodeRune (b0 :: rest) in
  if (r =? utf8.RuneError)%N && (size =? 1)%nat then false
  else utf8.validFuel fuel (skipn size (b0 :: rest)).
Proof. reflexivity. Qed.

(** The fuel of [utf8.Valid] is enough. *)
Lemma validFuel_more (fuel : nat) :
  forall p, List.length p <= fuel ->
            utf8.validFuel (S fuel) p = utf8.validFuel fuel p.
Proof.
  induction fuel as [|fuel IH]; intros p Hlen.
  - destruct p; [reflexivity | cbn in Hlen; lia].
  - destruct p as [|b0 rest]; [reflexivity|].
    cbn [List.length] in Hlen. rewrite !validFuel_step.
    pose proof (skipn_DecodeRune_length b0 rest) as Hs.
    destruct (utf8.DecodeRune (b0 :: rest)) as [c size]. cbn [snd] in Hs.
    rewrite !IH by lia. reflexivity.
Qed.

Local Close Scope char_scope.

(** ** The base64url codec: the texts that decode, and the texts of the
    encoder *)

Lemma decodeLoop_step (c : ascii) (src : list ascii) (si : N)
      (dbuf : list N) :
  base64.decodeLoop (c :: src) si dbuf =
  if base64.inAlphabet c then
    match dbuf with
    | [d0; d1; d2] =>
        let* tail := base64.decodeLoop src (si + 1) [] in
        Ok (base64.quantumBytes d0 d1 d2 (base64.decodeMap c) 4 ++ tail)
    | _ => base64.decodeLoop src (si + 1) (dbuf ++ [base64.decodeMap c])
    end
  else if base64.isLineBreak c then base64.decodeLoop src (si + 1) dbuf
  else Err (CorruptInputError (si + 1 - 1)).
Proof.
  unfold base64.inAlphabet, base64.isLineBreak. cbn [base64.decodeLoop].
  destruct (base64.decodeMap c =? 255)%N; reflexivity.
Qed.

Lemma isOk_bind {A B : Type} (r : result A) (f : A -> B) :
  isOk (let* v := r in Ok (f v)) = isOk r.
Proof. now destruct r. Qed.

Lemma value_bind {A B : Type} (r : result A) (f : A -> B) :
  value (let* v := r in Ok (f v)) = option_map f (value r).
Proof. now destruct r. Qed.

Lemma value_Ok {T : Type} (r : result T) (v : T) :
  value r = Some v <-> r = Ok v.
Proof. destruct r; cbn; split; congruence. Qed.

Lemma mod4_step (j n : nat) :
  ((S j + n) mod 4 =? 1)%nat = ((j + S n) mod 4 =? 1)%nat.
Proof. now rewrite Nat.add_succ_r. Qed.

(** The loop succeeds exactly on the characters it reads, unless one
    character is left over; [dbuf] holds at most three characters. *)
Lemma decodeLoop_isOk (src : list ascii) :
  forall (si : N) (dbuf : list N),
    List.length dbuf < 4 ->
    isOk (base64.decodeLoop src si dbuf)
    = forallb (fun c => base64.inAlphabet c || base64.isLineBreak c) src
      && negb (((List.length dbuf + base64.countAlphabet src) mod 4 =? 1)%nat).
Proof.
  induction src as [|c src IH]; intros si dbuf Hlen.
  - destruct dbuf as [|d0 [|d1 [|d2 [|d3 dbuf]]]]; try reflexivity.
    cbn [List.length] in Hlen; lia.
  - rewrite decodeLoop_step. unfold base64.countAlphabet in *.
    cbn [forallb filter].
    destruct (base64.inAlphabet c) eqn:Ea; cbn [orb andb List.length].
    + destruct dbuf as [|d0 [|d1 [|d2 [|d3 dbuf]]]];
        try (cbn [List.length] in Hlen; lia).
      * rewrite IH by (cbn; lia). cbn [app List.length].
        now rewrite Nat.add_succ_r.
      * rewrite IH by (cbn; lia). cbn [app List.length].
        now rewrite !Nat.add_succ_r.
      * rewrite IH by (cbn; lia). cbn [app List.length].
        now rewrite !Nat.add_succ_r.
      * rewrite isOk_bind, IH by (cbn; lia). cbn [List.length].
        f_equal. f_equal.
        replace (3 + S (List.length (filter base64.inAlphabet src)))
          with (List.length (filter base64.inAlphabet src) + 1 * 4) by lia.
        now rewrite Nat.Div0.mod_add.
    + destruct (base64.isLineBreak c); [now apply IH | reflexivity].
Qed.

Theorem DecodeString_isOk (s : string) :
  isOk (base64.DecodeString s)
  = base64.wellFormed (list_ascii_of_string s).
Proof.
  unfold base64.DecodeString, base64.wellFormed.
  now rewrite decodeLoop_isOk by (cbn; lia).
Qed.

Lemma lineBreak_not_inAlphabet (c : ascii) :
  base64.isLineBreak c = true -> base64.inAlphabet c = false.
Proof.
  unfold base64.isLineBreak. rewrite orb_true_iff, !Ascii.eqb_eq.
  intros [-> | ->]; reflexivity.
Qed.

(** The index at which the loop starts bears on the offset that an
    error reports only, not on the bytes. *)
Lemma decodeLoop_offset (src : list ascii) :
  forall (si si' : N) (dbuf : list N),
    value (base64.decodeLoop src si dbuf)
    = value (base64.decodeLoop src si' dbuf).
Proof.
  induction src as [|c src IH]; intros si si' dbuf.
  - destruct dbuf as [|d0 [|d1 [|d2 [|d3 dbuf]]]]; reflexivity.
  - rewrite !decodeLoop_step.
    destruct (base64.inAlphabet c).
    + destruct dbuf as [|d0 [|d1 [|d2 [|d3 dbuf]]]]; try apply IH.
      rewrite !value_bind. f_equal. apply IH.
    + destruct (base64.isLineBreak c); [apply IH | reflexivity].
Qed.

(** Line breaks are skipped: they bear on the offset of an error
    only. *)
Lemma decodeLoop_lineBreaks (src : list ascii) :
  forall (si si' : N) (dbuf : list N),
    value (base64.decodeLoop
             (filter (fun c => negb (base64.isLineBreak c)) src) si dbuf)
    = value (base64.decodeLoop src si' dbuf).
Proof.
  induction src as [|c src IH]; intros si si' dbuf.
  - apply (decodeLoop_offset []).
  - cbn [filter]. destruct (base64.isLineBreak c) eqn:El; cbn [negb].
    + rewrite (decodeLoop_step c src), (lineBreak_not_inAlphabet _ El), El.
      apply IH.
    + rewrite !decodeLoop_step.
      destruct (base64.inAlphabet c); [|now rewrite El].
      destruct dbuf as [|d0 [|d1 [|d2 [|d3 dbuf]]]]; try apply IH.
      rewrite !value_bind. f_equal. apply IH.
Qed.

Lemma list_ind3 (A : Type) (P : list A -> Prop) :
  P [] -> (forall a, P [a]) -> (forall a b, P [a; b]) ->
  (forall a b c l, P l -> P (a :: b :: c :: l)) ->
  forall l, P l.
Proof.
  intros H0 H1 H2 H3.
  fix IH 1. intros [|a [|b [|c l]]];
    [exact H0 | apply H1 | apply H2 | apply H3, IH].
Qed.

Lemma encode_inAlphabet (v : N) :
  base64.inAlphabet (base64.encode (N.land v 0x3F)) = true.
Proof.
  unfold base64.inAlphabet.
  pose proof (sextet_bound v) as H.
  rewrite (@decodeMap_encode _ H).
  apply negb_true_iff, N.eqb_neq. lia.
Qed.

Lemma Encode_inAlphabet (src : list ascii) :
  forallb base64.inAlphabet (base64.Encode src) = true.
Proof.
  induction src as [|a|a b|a b c l IH] using list_ind3;
    cbn [base64.Encode forallb]; rewrite ?encode_inAlphabet; auto.
Qed.

Lemma Encode_length (src : list ascii) :
  List.length (base64.Encode src) = (4 * List.length src + 2) / 3.
Proof.
  induction src as [|a|a b|a b c l IH] using list_ind3;
    try reflexivity.
  cbn [base64.Encode List.length]. rewrite IH.
  replace (4 * S (S (S (List.length l))) + 2)
    with (4 * List.length l + 2 + 4 * 3) by lia.
  rewrite Nat.div_add by discriminate. lia.
Qed.

(** The decoder has one kind of error. *)
Lemma decodeLoop_error (src : list ascii) :
  forall (si : N) (dbuf : list N) (e : error),
    base64.decodeLoop src si dbuf = Err e ->
    exists n, e = CorruptInputError n.
Proof.
  induction src as [|c src IH]; intros si dbuf e H.
  - destruct dbuf as [|d0 [|d1 [|d2 [|d3 dbuf]]]]; cbn in H;
      try discriminate; injection H as <-; eauto.
  - rewrite decodeLoop_step in H.
    destruct (base64.inAlphabet c).
    + destruct dbuf as [|d0 [|d1 [|d2 [|d3 dbuf]]]]; eauto.
      destruct (base64.decodeLoop src (si + 1) []) eqn:E; [discriminate|].
      cbn [bind] in H. injection H as <-. eauto.
    + destruct (base64.isLineBreak c); [eauto|].
      injection H as <-. eauto.
Qed.

Lemma DecodeString_error (s : string) (e : error) :
  base64.DecodeString s = Err e -> exists n, e = CorruptInputError n.
Proof. apply decodeLoop_error. Qed.

Lemma list_ascii_of_string_app (s t : string) :
  list_ascii_of_string (s ++ t)
  = list_ascii_of_string s ++ list_ascii_of_string t.
Proof. induction s as [|c s IH]; cbn; congruence. Qed.

Lemma DecodeString_stripLineBreaks (s : string) :
  value (base64.DecodeString (base64.stripLineBreaks s))
  = value (base64.DecodeString s).
Proof.
  unfold base64.DecodeString, base64.stripLineBreaks.
  rewrite list_ascii_of_string_of_list_ascii. apply decodeLoop_lineBreaks.
Qed.

Lemma decodeLoop_trailing_lineBreak (src : list ascii) (c : ascii) :
  base64.isLineBreak c = true ->
  forall (si : N) (dbuf : list N),
    value (base64.decodeLoop (src ++ [c]) si dbuf)
    = value (base64.decodeLoop src si dbuf).
Proof.
  intros Hc si dbuf.
  rewrite <- (decodeLoop_lineBreaks (src ++ [c]) si si),
          <- (decodeLoop_lineBreaks src si si).
  rewrite filter_app. cbn [filter]. rewrite Hc. cbn [negb].
  now rewrite app_nil_r.
Qed.

(** A string of ASCII characters that comes out of the coercion went
    in unchanged. *)
Lemma coerceFuel_ascii (fuel : nat) :
  forall p : list ascii,
    List.length p <= fuel ->
    Forall (fun c => (utf8.uint c < 0x80)%N) (utf8.coerceFuel fuel p) ->
    utf8.coerceFuel fuel p = p.
Proof.
  induction fuel as [|fuel IH]; intros p Hlen Ha.
  - destruct p; [reflexivity | cbn in Hlen; lia].
  - destruct p as [|b0 rest]; [reflexivity|].
    cbn [List.length] in Hlen. cbn [utf8.coerceFuel] in *.
    destruct (N.ltb_spec (utf8.uint b0) 0x80) as [Hlow|Hhigh].
    + rewrite DecodeRune_low in * by exact Hlow.
      replace ((utf8.uint b0 =? utf8.RuneError)%N) with false in *
        by (symmetry; apply N.eqb_neq; unfold utf8.RuneError; lia).
      cbn [andb firstn skipn app] in *.
      inversion Ha as [|? ? _ Ht]; subst. f_equal. apply IH; [lia|exact Ht].
    + exfalso.
      destruct (@DecodeRune_high b0 rest Hhigh)
        as [E|[(b1 & r & -> & _ & _ & E)
              |[(b1 & b2 & r & -> & _ & _ & _ & _ & _ & E)
               |(b1 & b2 & b3 & r & -> & _ & _ & _ & _ & _ & _ & E)]]];
        rewrite E in Ha;
        cbn [N.eqb Pos.eqb Nat.eqb andb utf8.RuneError firstn app] in Ha;
        rewrite ?andb_false_r in Ha; cbn [firstn app] in Ha;
        inversion Ha as [|? ? Hc _]; subst;
        try (vm_compute in Hc; discriminate Hc); lia.
Qed.

Lemma Forall_list_ascii_of_string_of_list_ascii (P : ascii -> Prop)
      (l : list ascii) :
  Forall P (list_ascii_of_string (string_of_list_ascii l)) -> Forall P l.
Proof. now rewrite list_ascii_of_string_of_list_ascii. Qed.

Lemma CoerceString_ascii (s t : string) :
  Forall (fun c => (utf8.uint c < 0x80)%N) (list_ascii_of_string t) ->
  utf8.CoerceString s = t -> s = t.
Proof.
  unfold utf8.CoerceString, utf8.Coerce. intros Ha <-.
  apply Forall_list_ascii_of_string_of_list_ascii in Ha.
  rewrite coerceFuel_ascii by (auto using le_n).
  symmetry. apply string_of_list_ascii_of_string.
Qed.

Lemma string_length_append (s t : string) :
  String.length (s ++ t)%string = String.length s + String.length t.
Proof. induction s as [|c s IH]; cbn; congruence. Qed.

Lemma string_append_assoc (s t u : string) :
  ((s ++ t) ++ u = s ++ (t ++ u))%string.
Proof. induction s as [|c s IH]; cbn; congruence. Qed.

Lemma append_neq (d s : string) : s <> "" -> (d ++ s)%string <> d.
Proof.
  intros Hs H. apply (f_equal String.length) in H.
  rewrite string_length_append in H.
  destruct s; [contradiction | cbn in H; lia].
Qed.

Lemma trimPrefix_append_r (t : string) (p s r : string) :
  strings.trimPrefix s p = Some r ->
  strings.trimPrefix (s ++ t)%string p = Some (r ++ t)%string.
Proof.
  revert s; induction p as [|a p IH]; intros s H; cbn in *.
  - congruence.
  - destruct s as [|c s]; [discriminate|]. cbn.
    destruct (Ascii.eqb c a); [auto | discriminate].
Qed.

(** ** The JSON codec: the order of the members of a key object *)

(** The text of an object decodes to its members, whatever their names
    and their order. *)
Lemma Unmarshal_members (fs : list (string * string)) :
  jwx.Unmarshal ("{"%char :: jwx.appendMembers true fs ++ ["}"%char])
    jwx.zero
  = jwx.assignAll jwx.zero (jwx.membersOf fs).
Proof.
  unfold jwx.Unmarshal, json.decode.
  rewrite decodeValue_appendMembers.
  - reflexivity.
  - pose proof (appendMembers_length fs true).
    cbn [List.length]. rewrite length_app. cbn [List.length]. lia.
Qed.

Lemma membersOf_cons (f : string * string) (fs : list (string * string)) :
  jwx.membersOf (f :: fs)
  = if String.eqb (snd f) "" then jwx.membersOf fs
    else (utf8.Coerce (list_ascii_of_string (fst f)),
          json.Str (utf8.Coerce (list_ascii_of_string (snd f))))
           :: jwx.membersOf fs.
Proof.
  unfold jwx.membersOf. destruct f as [n w]. rewrite present_cons.
  cbn [fst snd]. now destruct (String.eqb w "").
Qed.

(** Two fields of a key object can be assigned in either order. *)
Lemma assign_fields_commute (k k0 : jwx.PublicKeyJWK)
      (x y : string * string) (rest : list (list ascii * json.value)) :
  In x (jwx.fields k) -> In y (jwx.fields k) ->
  jwx.assignAll k0 (jwx.membersOf [x] ++ jwx.membersOf [y] ++ rest)
  = jwx.assignAll k0 (jwx.membersOf [y] ++ jwx.membersOf [x] ++ rest).
Proof.
  destruct k as [kty crv vx vy n e use], k0 as [kty0 crv0 x0 y0 n0 e0 use0].
  unfold jwx.fields.
  cbn [jwx.KTY jwx.CRV jwx.X jwx.Y jwx.N jwx.E jwx.Use In].
  intros Hx Hy.
  repeat (destruct Hx as [Hx|Hx]; [subst x|]); [..|contradiction];
    repeat (destruct Hy as [Hy|Hy]; [subst y|]); try contradiction;
    rewrite !membersOf_cons; cbn [fst snd];
    repeat match goal with
           | |- context [String.eqb ?v ""] => destruct (String.eqb v "")
           end; reflexivity.
Qed.

Lemma membersOf_cons_app (f : string * string)
      (fs : list (string * string)) :
  jwx.membersOf (f :: fs) = jwx.membersOf [f] ++ jwx.membersOf fs.
Proof.
  rewrite !membersOf_cons. now destruct (String.eqb (snd f) "").
Qed.

Lemma assignAll_app_congr (pre ms ms' : list (list ascii * json.value)) :
  (forall k0, jwx.assignAll k0 ms = jwx.assignAll k0 ms') ->
  forall k0, jwx.assignAll k0 (pre ++ ms) = jwx.assignAll k0 (pre ++ ms').
Proof.
  intro H. induction pre as [|m pre IH]; intro k0; [apply H|].
  cbn [app jwx.assignAll]. destruct (jwx.assign k0 m); cbn [bind]; auto.
Qed.

(** Assigning the fields of a key object in another order gives the same
    key object. *)
Lemma assignAll_Permutation (k : jwx.PublicKeyJWK)
      (fs fs' : list (string * string)) :
  Permutation fs fs' ->
  (forall x, In x fs -> In x (jwx.fields k)) ->
  forall k0,
    jwx.assignAll k0 (jwx.membersOf fs) = jwx.assignAll k0 (jwx.membersOf fs').
Proof.
  induction 1 as [|x l l' Hp IH|x y l|l l'' l' Hp1 IH1 Hp2 IH2];
    intros Hin k0.
  - reflexivity.
  - rewrite (membersOf_cons_app x l), (membersOf_cons_app x l').
    apply assignAll_app_congr. intro k1. apply IH.
    intros z Hz. apply Hin. now right.
  - rewrite (membersOf_cons_app y (x :: l)), (membersOf_cons_app x l),
      (membersOf_cons_app x (y :: l)), (membersOf_cons_app y l).
    apply (@assign_fields_commute k); apply Hin; cbn; auto.
  - rewrite IH1 by exact Hin. apply IH2.
    intros z Hz. apply Hin. apply (Permutation_in z (Permutation_sym Hp1) Hz).
Qed.

Lemma Unmarshal_Permutation (k : jwx.PublicKeyJWK)
      (fs : list (string * string)) :
  Permutation fs (jwx.fields k) ->
  jwx.Unmarshal ("{"%char :: jwx.appendMembers true fs ++ ["}"%char])
    jwx.zero
  = Ok (jwx.coerceKey k).
Proof.
  intro Hp. rewrite Unmarshal_members.
  rewrite (@assignAll_Permutation k fs (jwx.fields k) Hp).
  - apply assignAll_membersOf.
  - intros x Hx. exact (Permutation_in x Hp Hx).
Qed.

(** A prefix that does not hold the first character of [t] is cut from
    [d ++ t] only if it is cut from [d]. *)
Lemma trimPrefix_append_inv (c : ascii) (t p : string) :
  (forall a, In a (list_ascii_of_string p) -> Ascii.eqb c a = false) ->
  forall d r,
    strings.trimPrefix (d ++ String c t)%string p = Some r ->
    exists r', strings.trimPrefix d p = Some r'
               /\ r = (r' ++ String c t)%string.
Proof.
  induction p as [|a p IH]; intros Hp d r H; cbn in *.
  - injection H as <-. eauto.
  - destruct d as [|x d]; cbn in H.
    + rewrite (Hp a) in H by (now left). discriminate.
    + cbn. destruct (Ascii.eqb x a); [|discriminate].
      apply IH; [|exact H]. intros b Hb. apply Hp. now right.
Qed.

Lemma wellFormed_fragment (r : string) (t : string) :
  base64.wellFormed (list_ascii_of_string (r ++ String "#" t)) = false.
Proof.
  unfold base64.wellFormed. rewrite list_ascii_of_string_app, forallb_app.
  cbn [list_ascii_of_string forallb].
  change (base64.inAlphabet "#" || base64.isLineBreak "#") with false.
  cbn [andb]. now rewrite andb_false_r.
Qed.

Section JWKProperties.

Set Default Proof Using "Type".

Variable KnownDIDContext : string.
Variable JSONWebKey2020Type : string.
Variable JWKMethod : Method.
Variables Ed25519 X25519 SECP256k1 P256 P384 P521 RSA : KeyType.
Variables PublicKey PrivateKey Entropy JWKKey : Type.
Context {JWKKey_Key : jwk.Key JWKKey}.
Variable GenerateKeyByKeyType :
  KeyType -> Entropy -> result (PublicKey * PrivateKey) * Entropy.
Variable PublicKeyToJWK : PublicKey -> result JWKKey.

Local Abbreviation Expand := (Expand KnownDIDContext JSONWebKey2020Type).
Local Abbreviation expansion := (expansion KnownDIDContext JSONWebKey2020Type).
Local Abbreviation IsValid := (IsValid KnownDIDContext JSONWebKey2020Type).
Local Abbreviation Resolve := (Resolve KnownDIDContext JSONWebKey2020Type).
Local Abbreviation Methods := (Methods JWKMethod).
Local Abbreviation GetSupportedDIDJWKTypes :=
  (GetSupportedDIDJWKTypes Ed25519 X25519 SECP256k1 P256 P384 P521 RSA).
Local Abbreviation isSupportedJWKType :=
  (isSupportedJWKType Ed25519 X25519 SECP256k1 P256 P384 P521 RSA).
Local Abbreviation GenerateDIDJWK :=
  (GenerateDIDJWK Ed25519 X25519 SECP256k1 P256 P384 P521 RSA
     GenerateKeyByKeyType PublicKeyToJWK).

(** ** Properties of the prefix and of the stages of [Expand] *)

Lemma trimPrefix_HasPrefix (p q s r : string) :
  strings.trimPrefix s (p ++ q)%string = Some r ->
  strings.HasPrefix s p = true.
Proof.
  revert s; induction p as [|a p IH]; intros s H; [reflexivity|].
  destruct s as [|c s]; simpl in *; [discriminate|].
  destruct (Ascii.eqb c a); [simpl; eauto | discriminate].
Qed.

Lemma trimPrefix_append (p s : string) :
  strings.trimPrefix (p ++ s)%string p = Some s.
Proof.
  induction p as [|a p IH]; simpl; [reflexivity|].
  now rewrite Ascii.eqb_refl.
Qed.

Lemma trimPrefix_Some (p s r : string) :
  strings.trimPrefix s p = Some r -> s = (p ++ r)%string.
Proof.
  revert s; induction p as [|a p IH]; intros s H; simpl in *.
  - congruence.
  - destruct s as [|c s]; [discriminate|].
    destruct (Ascii.eqb c a) eqn:E; [|discriminate].
    apply Ascii.eqb_eq in E; subst c. f_equal; auto.
Qed.

Lemma Suffix_Ok (d suffix : string) :
  Suffix d = Ok suffix <->
  strings.trimPrefix d (JWKPrefix ++ ":")%string = Some suffix.
Proof.
  unfold Suffix, strings.CutPrefix.
  destruct (strings.trimPrefix d (JWKPrefix ++ ":")%string);
    split; intro H; congruence.
Qed.

Lemma Suffix_HasPrefix (d suffix : string) :
  Suffix d = Ok suffix -> strings.HasPrefix d JWKPrefix = true.
Proof.
  intro H; apply Suffix_Ok in H. eapply trimPrefix_HasPrefix; eauto.
Qed.

(** [Expand] is the four checks of the code followed by the expansion
    of the specification. *)
Lemma Expand_stages (d : DIDJWK) :
  Expand d =
  if negb (strings.HasPrefix d JWKPrefix) then
    Err (Errorf ("not a did:jwk DID, invalid prefix: " ++ d))
  else
    match Suffix d with
    | Err err => Err (Wrap err "reading suffix")
    | Ok encodedJWK =>
        match base64.DecodeString encodedJWK with
        | Err err => Err (Wrap err "decoding did:jwk")
        | Ok bytes =>
            match jwx.Unmarshal bytes jwx.zero with
            | Err err => Err (Wrap err "unmarshalling did:jwk")
            | Ok k => Ok (expansion d k)
            end
        end
    end.
Proof.
  unfold Expand, String_.
  destruct (negb (strings.HasPrefix d JWKPrefix)); [reflexivity|].
  destruct (Suffix d) as [encodedJWK|]; [|reflexivity].
  destruct (base64.DecodeString encodedJWK) as [bytes|]; [|reflexivity].
  destruct (jwx.Unmarshal bytes jwx.zero) as [k|]; [|reflexivity].
  unfold expansion; cbn [Document.Context Document.ID
    Document.VerificationMethod Document.Authentication
    Document.AssertionMethod Document.KeyAgreement
    Document.CapabilityInvocation Document.CapabilityDelegation].
  destruct (String.eqb (jwx.Use k) "sig") eqn:Hsig.
  - apply String.eqb_eq in Hsig; rewrite Hsig; reflexivity.
  - destruct (String.eqb (jwx.Use k) "enc"); reflexivity.
Qed.

Lemma Decode_Expand (d : DIDJWK) (k : jwx.PublicKeyJWK) :
  Decode d = Ok k -> Expand d = Ok (expansion d k).
Proof.
  unfold Decode; intro H. rewrite Expand_stages.
  destruct (Suffix d) as [encodedJWK|] eqn:Hs; [|discriminate].
  pose proof Hs as Hp; apply Suffix_HasPrefix in Hp.
  rewrite Hp; cbn [negb bind] in *.
  destruct (base64.DecodeString encodedJWK) as [bytes|]; [|discriminate].
  cbn [bind] in H; now rewrite H.
Qed.

Lemma Expand_Decode (d : DIDJWK) (doc : Document.t) :
  Expand d = Ok doc -> exists k, Decode d = Ok k /\ doc = expansion d k.
Proof.
  rewrite Expand_stages; unfold Decode.
  destruct (negb (strings.HasPrefix d JWKPrefix)); [discriminate|].
  destruct (Suffix d) as [encodedJWK|]; [|discriminate]. cbn [bind].
  destruct (base64.DecodeString encodedJWK) as [bytes|]; [|discriminate].
  cbn [bind].
  destruct (jwx.Unmarshal bytes jwx.zero) as [k|]; [|discriminate].
  intro H; exists k; split; congruence.
Qed.

(** ** The expanded document *)

(** C1. For every identifier that decodes to a key object, [Expand]
    returns a document whose purpose lists follow the use field of the
    key object as a three-way decision.  With "sig" only the
    key-agreement list is absent and each of the other four lists
    holds the single reference made of the identifier and "#0"; with
    "enc" only the key-agreement list is present; with any other
    value, the empty one of an absent field included, all five lists
    hold that single reference. *)
Theorem Expand_usage_hint (d : DIDJWK) (k : jwx.PublicKeyJWK) :
  Decode d = Ok k ->
  exists doc,
    Expand d = Ok doc
    /\ (jwx.Use k = "sig" ->
        Document.KeyAgreement doc = []
        /\ Document.Authentication doc = [(d ++ "#0")%string]
        /\ Document.AssertionMethod doc = [(d ++ "#0")%string]
        /\ Document.CapabilityInvocation doc = [(d ++ "#0")%string]
        /\ Document.CapabilityDelegation doc = [(d ++ "#0")%string])
    /\ (jwx.Use k = "enc" ->
        Document.KeyAgreement doc = [(d ++ "#0")%string]
        /\ Document.Authentication doc = []
        /\ Document.AssertionMethod doc = []
        /\ Document.CapabilityInvocation doc = []
        /\ Document.CapabilityDelegation doc = [])
    /\ (jwx.Use k <> "sig" -> jwx.Use k <> "enc" ->
        Document.KeyAgreement doc = [(d ++ "#0")%string]
        /\ Document.Authentication doc = [(d ++ "#0")%string]
        /\ Document.AssertionMethod doc = [(d ++ "#0")%string]
        /\ Document.CapabilityInvocation doc = [(d ++ "#0")%string]
        /\ Document.CapabilityDelegation doc = [(d ++ "#0")%string]).
Proof.
  intro H; exists (expansion d k); split; [now apply Decode_Expand|].
  unfold expansion; cbn.
  repeat split; intros.
  all: try match goal with
       | Hu : jwx.Use _ = _ |- _ => rewrite Hu; reflexivity
       end.
  all: repeat match goal with
       | Hn : jwx.Use _ <> _ |- _ =>
           apply String.eqb_neq in Hn; rewrite Hn; clear Hn
       end; reflexivity.
Qed.

(** C3. For every identifier that decodes to a key object, [Expand]
    returns a document whose id is the identifier, whose verification
    methods are exactly one entry, with the identifier followed by
    "#0" as id, the JSON-Web-Key-2020 type tag as type, the identifier
    as controller and the decoded key object as public key, and whose
    context list is the standard DID context followed by the
    JSON-Web-Key-2020 suite context. *)
Theorem Expand_document_shape (d : DIDJWK) (k : jwx.PublicKeyJWK) :
  Decode d = Ok k ->
  exists doc,
    Expand d = Ok doc
    /\ Document.ID doc = d
    /\ Document.VerificationMethod doc =
       [ {| VerificationMethod.ID := (d ++ "#0")%string;
            VerificationMethod.Type_ := JSONWebKey2020Type;
            VerificationMethod.Controller := d;
            VerificationMethod.PublicKeyJWK := Some k |} ]
    /\ Document.Context doc =
       [KnownDIDContext; "https://w3id.org/security/suites/jws-2020/v1"].
Proof.
  intro H; exists (expansion d k); split; [now apply Decode_Expand|].
  repeat split.
Qed.

(** ** The stages of decoding *)

(** C4, as amended.  On every input [Expand] returns either a document
    or an error, never both.  It makes four checks in order, each with
    an error of its own: the prefix "did:jwk", the colon after the
    prefix, the base64url payload and the JSON text.  There is no
    check that a payload follows the colon: an empty payload passes
    the first three checks and is rejected by the JSON check, with the
    error of that check. *)
Theorem Expand_gates (d : DIDJWK) :
  match failingGate d with
  | None => exists k, Decode d = Ok k /\ Expand d = Ok (expansion d k)
  | Some gate =>
      exists e,
        Expand d = Err e
        /\ errorGate e =
           Some match gate with PayloadGate => JSONGate | g => g end
        /\ (strings.HasPrefix d JWKPrefix = false ->
            e = Errorf ("not a did:jwk DID, invalid prefix: " ++ d))
        /\ (strings.HasPrefix d JWKPrefix = true ->
            gate = PrefixGate ->
            e = Wrap (Errorf ("invalid did:jwk: " ++ d)) "reading suffix")
  end.
Proof.
  unfold failingGate. rewrite Expand_stages. unfold Decode, Suffix,
    strings.CutPrefix.
  destruct (strings.trimPrefix d (JWKPrefix ++ ":")%string)
    as [payload|] eqn:Ht.
  - rewrite (trimPrefix_HasPrefix _ _ _ Ht); cbn [negb bind].
    destruct (String.eqb payload "") eqn:He.
    + apply String.eqb_eq in He; subst payload.
      change (base64.DecodeString "") with (@Ok (list ascii) []).
      change (jwx.Unmarshal [] jwx.zero)
        with (@Err jwx.PublicKeyJWK JSONError).
      eexists; split; [reflexivity|].
      split; [reflexivity|]. split; discriminate.
    + destruct (base64.DecodeString payload) as [bytes|]; cbn [bind].
      * destruct (jwx.Unmarshal bytes jwx.zero) as [k|].
        -- exists k; split; reflexivity.
        -- eexists; split; [reflexivity|].
           split; [reflexivity|]. split; discriminate.
      * eexists; split; [reflexivity|].
        split; [reflexivity|]. split; discriminate.
  - destruct (strings.HasPrefix d JWKPrefix) eqn:Hp; cbn [negb].
    + eexists; split; [reflexivity|].
      split; [reflexivity|]. split; [discriminate | reflexivity].
    + eexists; split; [reflexivity|].
      split; [reflexivity|]. split; [reflexivity | discriminate].
Qed.

(** ** The key-type gate *)

Lemma rangeContains_In (jwkTypes : list KeyType) (kt : KeyType) :
  rangeContains jwkTypes kt = true <-> In kt jwkTypes.
Proof.
  induction jwkTypes as [|t ts IH]; simpl.
  - split; [discriminate | intros []].
  - destruct (String.eqb t kt) eqn:E.
    + apply String.eqb_eq in E; split; [intros _; now left | reflexivity].
    + apply String.eqb_neq in E; rewrite IH; split; [intro; now right|].
      intros [H|H]; [contradiction | assumption].
Qed.

(** C5. The supported key types are a fixed list of seven tags,
    [isSupportedJWKType] is true of a tag exactly when the tag is in
    that list, and a generation request with a tag outside the list
    returns the error that names the tag, whatever the key generator
    is, with the source of randomness untouched. *)
Theorem unsupported_type_rejected :
  GetSupportedDIDJWKTypes =
    [Ed25519; X25519; SECP256k1; P256; P384; P521; RSA]
  /\ List.length GetSupportedDIDJWKTypes = 7
  /\ (forall kt, isSupportedJWKType kt = true <->
                 In kt GetSupportedDIDJWKTypes)
  /\ (forall kt rand,
        ~ In kt GetSupportedDIDJWKTypes ->
        GenerateDIDJWK kt rand =
          (Err (Errorf ("unsupported did:jwk type: " ++ kt)), rand)).
Proof.
  split; [reflexivity|]. split; [reflexivity|]. split.
  - intro kt; apply rangeContains_In.
  - intros kt rand Hn. unfold GenerateDIDJWK.
    destruct (isSupportedJWKType kt) eqn:E; [|reflexivity].
    apply rangeContains_In in E; contradiction.
Qed.

(** ** The resolver *)

Lemma Decode_Err_Expand (d : DIDJWK) (e : error) :
  Decode d = Err e -> exists err, Expand d = Err err.
Proof.
  rewrite Expand_stages; unfold Decode.
  destruct (negb (strings.HasPrefix d JWKPrefix)); [eauto|].
  destruct (Suffix d) as [encodedJWK|]; [|eauto]. cbn [bind].
  destruct (base64.DecodeString encodedJWK) as [bytes|]; [|eauto].
  cbn [bind].
  destruct (jwx.Unmarshal bytes jwx.zero) as [k|]; [discriminate | eauto].
Qed.

(** C6. [Methods] returns exactly one method tag.  On every
    identifier string [Resolve] either returns the document of
    [Expand], that is the expansion of the decoded key object, wrapped
    in a resolution result, or, when decoding fails, returns the error
    wrapped as a resolution error and no result. *)
Theorem resolver_contract :
  Methods = [JWKMethod]
  /\ List.length Methods = 1
  /\ forall did : string,
      ((exists doc,
           Expand did = Ok doc
           /\ Resolve did = Ok {| ResolutionResult.Document := doc |})
       \/ (exists err,
              Expand did = Err err
              /\ Resolve did = Err (Wrap err "expanding did:jwk")))
      /\ (forall k,
             Decode did = Ok k ->
             Resolve did =
               Ok {| ResolutionResult.Document := expansion did k |})
      /\ (forall e,
             Decode did = Err e ->
             exists err, Resolve did = Err (Wrap err "expanding did:jwk")).
Proof.
  split; [reflexivity|]. split; [reflexivity|].
  intro did; unfold Resolve. split; [|split].
  - destruct (Expand did) as [doc|err]; [left | right]; eauto.
  - intros k Hk. now rewrite (Decode_Expand _ Hk).
  - intros e He. destruct (Decode_Err_Expand _ He) as (err & ->). eauto.
Qed.

(** C7. [IsValid] is true of an identifier exactly when the identifier
    decodes to a key object and the expansion returns a document, that
    is, exactly when the resolution succeeds; an identifier with the
    right prefix can be invalid. *)
Theorem IsValid_semantic :
  (forall d : DIDJWK,
      IsValid d = true <->
      (exists k, Decode d = Ok k) /\ (exists doc, Expand d = Ok doc))
  /\ (forall d : DIDJWK,
         IsValid d = true <-> exists res, Resolve d = Ok res)
  /\ (exists d : DIDJWK,
         strings.HasPrefix d (JWKPrefix ++ ":") = true
         /\ IsValid d = false).
Proof.
  split; [|split].
  - intro d; unfold IsValid; split.
    + destruct (Expand d) as [doc|] eqn:E; [|discriminate].
      intros _. destruct (Expand_Decode _ E) as (k & Hk & _); eauto.
    + intros [_ [doc ->]]; reflexivity.
  - intro d; unfold IsValid, Resolve; split.
    + destruct (Expand d); [eauto | discriminate].
    + intros [res H]. destruct (Expand d); [reflexivity | discriminate].
  - exists "did:jwk:!"; split; reflexivity.
Qed.

(** C8. For every identifier that decodes to a key object the
    expansion returns a document, the one that the specification
    builds from the identifier and the key object alone; and any two
    results of [Expand] on one identifier are the same document. *)
Theorem Expand_total_deterministic (d : DIDJWK) (k : jwx.PublicKeyJWK) :
  Decode d = Ok k ->
  Expand d = Ok (expansion d k)
  /\ forall doc1 doc2,
      Expand d = Ok doc1 -> Expand d = Ok doc2 -> doc1 = doc2.
Proof.
  intro H; split; [now apply Decode_Expand|].
  intros doc1 doc2 H1 H2; congruence.
Qed.


(** ** Encoding followed by decoding *)

(** The identifier of a key is the prefix, a colon and the base64url
    text of its serialization, whatever the implementation of the key
    interface. *)
Lemma CreateDIDJWK_Ok (K : Type) (HK : jwk.Key K) (k : K)
      (bytes : list ascii) :
  jwk.MarshalJSON k = Ok bytes ->
  CreateDIDJWK k = Ok ("did:jwk:" ++ base64.EncodeToString bytes)%string.
Proof.
  intro H. unfold CreateDIDJWK. rewrite H.
  now rewrite list_ascii_of_string_of_list_ascii.
Qed.

(** Decoding that identifier deserializes exactly the bytes that the
    key was serialized to. *)
Lemma Decode_identifier (bytes : list ascii) :
  Decode ("did:jwk:" ++ base64.EncodeToString bytes)%string
  = jwx.Unmarshal bytes jwx.zero.
Proof.
  unfold Decode.
  assert (Hs : Suffix ("did:jwk:" ++ base64.EncodeToString bytes)%string
               = Ok (base64.EncodeToString bytes)).
  { apply Suffix_Ok. exact (trimPrefix_append "did:jwk:" _). }
  rewrite Hs; cbn [bind].
  now rewrite DecodeString_EncodeToString.
Qed.

(** Expanding that identifier goes as the deserialization of those
    bytes goes. *)
Lemma Expand_identifier (bytes : list ascii) :
  Expand ("did:jwk:" ++ base64.EncodeToString bytes)%string
  = match jwx.Unmarshal bytes jwx.zero with
    | Ok k =>
        Ok (expansion ("did:jwk:" ++ base64.EncodeToString bytes)%string k)
    | Err err => Err (Wrap err "unmarshalling did:jwk")
    end.
Proof.
  assert (Hs : Suffix ("did:jwk:" ++ base64.EncodeToString bytes)%string
               = Ok (base64.EncodeToString bytes)).
  { apply Suffix_Ok. exact (trimPrefix_append "did:jwk:" _). }
  destruct (jwx.Unmarshal bytes jwx.zero) as [k|err] eqn:Eu.
  - apply Decode_Expand. now rewrite Decode_identifier.
  - rewrite Expand_stages, (@Suffix_HasPrefix _ _ Hs), Hs.
    cbn [negb]. now rewrite DecodeString_EncodeToString, Eu.
Qed.

(** C2, as amended.  For every key, of any implementation of the key
    interface, whose serialization succeeds, [CreateDIDJWK] returns an
    identifier, and decoding that identifier is deserializing the
    serialized bytes into the key-object shape.  When the bytes are
    read as a key object, [Expand] returns a document whose single
    verification method embeds that key object; when they are not,
    [Expand] returns the wrapped error of the deserialization.  When
    the bytes are the JSON object that holds the fields of a key
    object of valid UTF-8, in any order, the key object that comes back
    is that key object. *)
Theorem round_trip (K : Type) (HK : jwk.Key K) (key : K)
        (bytes : list ascii) :
  jwk.MarshalJSON key = Ok bytes ->
  exists d,
    CreateDIDJWK key = Ok d
    /\ Decode d = jwx.Unmarshal bytes jwx.zero
    /\ (forall k,
          jwx.Unmarshal bytes jwx.zero = Ok k ->
          exists doc,
            Expand d = Ok doc
            /\ map VerificationMethod.PublicKeyJWK
                 (Document.VerificationMethod doc) = [Some k])
    /\ (forall err,
          jwx.Unmarshal bytes jwx.zero = Err err ->
          Expand d = Err (Wrap err "unmarshalling did:jwk"))
    /\ (forall (k : jwx.PublicKeyJWK) (fs : list (string * string)),
          jwx.validKey k = true ->
          Permutation fs (jwx.fields k) ->
          bytes = "{"%char :: jwx.appendMembers true fs ++ ["}"%char] ->
          Decode d = Ok k).
Proof.
  intro Hm.
  exists ("did:jwk:" ++ base64.EncodeToString bytes)%string.
  split; [now apply CreateDIDJWK_Ok|].
  split; [apply Decode_identifier|].
  split; [|split].
  - intros k Hk. rewrite Expand_identifier, Hk.
    eexists; split; reflexivity.
  - intros err Herr. now rewrite Expand_identifier, Herr.
  - intros k fs Hv Hp ->.
    rewrite Decode_identifier, (@Unmarshal_Permutation _ _ Hp).
    now rewrite (@coerceKey_valid _ Hv).
Qed.

(** C9, as amended.  The list of supported key types is consulted on
    the generation path only.  For every key, of any implementation of
    the key interface and of any algorithm family, whose serialization
    succeeds, [CreateDIDJWK] returns an identifier; that identifier
    decodes, is valid and resolves exactly when the serialized bytes
    are read as the key-object shape: then [Expand] and [Resolve]
    return the document of the key object read, and otherwise the
    wrapped error of the deserialization. *)
Theorem no_key_type_check (K : Type) (HK : jwk.Key K) (key : K)
        (bytes : list ascii) :
  jwk.MarshalJSON key = Ok bytes ->
  exists d,
    CreateDIDJWK key = Ok d
    /\ Decode d = jwx.Unmarshal bytes jwx.zero
    /\ (IsValid d = true <-> exists k, jwx.Unmarshal bytes jwx.zero = Ok k)
    /\ (forall k,
          jwx.Unmarshal bytes jwx.zero = Ok k ->
          Expand d = Ok (expansion d k)
          /\ Resolve d = Ok {| ResolutionResult.Document := expansion d k |})
    /\ (forall err,
          jwx.Unmarshal bytes jwx.zero = Err err ->
          Expand d = Err (Wrap err "unmarshalling did:jwk")
          /\ Resolve d
             = Err (Wrap (Wrap err "unmarshalling did:jwk")
                      "expanding did:jwk")).
Proof.
  intro Hm.
  exists ("did:jwk:" ++ base64.EncodeToString bytes)%string.
  split; [now apply CreateDIDJWK_Ok|].
  split; [apply Decode_identifier|].
  unfold IsValid, Resolve. rewrite Expand_identifier. split; [|split].
  - destruct (jwx.Unmarshal bytes jwx.zero) as [k|err]; split.
    + eauto.
    + reflexivity.
    + discriminate.
    + intros (k & Hk); discriminate Hk.
  - intros k Hk. rewrite Hk. split; reflexivity.
  - intros err Herr. rewrite Herr. split; reflexivity.
Qed.

End JWKProperties.

(** ** Further properties of the functions of the file *)

Section JWKExtras.

Set Default Proof Using "Type".

Variable KnownDIDContext : string.
Variable JSONWebKey2020Type : string.
Variable JWKMethod : Method.
Variables Ed25519 X25519 SECP256k1 P256 P384 P521 RSA : KeyType.
Variables PublicKey PrivateKey Entropy JWKKey : Type.
Context {JWKKey_Key : jwk.Key JWKKey}.
Variable GenerateKeyByKeyType :
  KeyType -> Entropy -> result (PublicKey * PrivateKey) * Entropy.
Variable PublicKeyToJWK : PublicKey -> result JWKKey.

Local Abbreviation Expand := (Expand KnownDIDContext JSONWebKey2020Type).
Local Abbreviation expansion := (expansion KnownDIDContext JSONWebKey2020Type).
Local Abbreviation IsValid := (IsValid KnownDIDContext JSONWebKey2020Type).
Local Abbreviation Resolve := (Resolve KnownDIDContext JSONWebKey2020Type).
Local Abbreviation GetSupportedDIDJWKTypes :=
  (GetSupportedDIDJWKTypes Ed25519 X25519 SECP256k1 P256 P384 P521 RSA).
Local Abbreviation isSupportedJWKType :=
  (isSupportedJWKType Ed25519 X25519 SECP256k1 P256 P384 P521 RSA).
Local Abbreviation GenerateDIDJWK :=
  (GenerateDIDJWK Ed25519 X25519 SECP256k1 P256 P384 P521 RSA
     GenerateKeyByKeyType PublicKeyToJWK).

(** X1. [Suffix] succeeds exactly on the strings that begin with
    "did:jwk:" and returns what follows the colon, whatever it is, the
    empty string included; on every other string, the bare prefix
    "did:jwk" included, it returns the error that quotes the string. *)
Theorem Suffix_characterised (d : DIDJWK) :
  match Suffix d with
  | Ok suffix => d = ("did:jwk:" ++ suffix)%string
  | Err err =>
      err = Errorf ("invalid did:jwk: " ++ d)
      /\ forall suffix, d <> ("did:jwk:" ++ suffix)%string
  end
  /\ forall suffix, Suffix ("did:jwk:" ++ suffix)%string = Ok suffix.
Proof.
  split.
  - destruct (Suffix d) as [suffix|err] eqn:E.
    + apply Suffix_Ok in E. now apply trimPrefix_Some in E.
    + split.
      * unfold Suffix, strings.CutPrefix in E.
        destruct (strings.trimPrefix d (JWKPrefix ++ ":")%string);
          [discriminate | now injection E as <-].
      * intros suffix ->.
        assert (H : Suffix ("did:jwk:" ++ suffix)%string = Ok suffix)
          by (apply Suffix_Ok; exact (trimPrefix_append "did:jwk:" _)).
        congruence.
  - intro suffix. apply Suffix_Ok. exact (trimPrefix_append "did:jwk:" _).
Qed.

Lemma length_string_of_list_ascii (l : list ascii) :
  String.length (string_of_list_ascii l) = List.length l.
Proof. induction l as [|c l IH]; cbn; congruence. Qed.

(** X2. An identifier returned by [CreateDIDJWK] is "did:jwk:"
    followed by a payload that [Suffix] gives back, that is made of the
    64 characters of the base64url alphabet only (no padding, no line
    break), that has the length of the unpadded encoding of the
    serialized key, and that decodes to exactly the serialized bytes. *)
Theorem CreateDIDJWK_format (K : Type) (HK : jwk.Key K) (k : K)
        (d : DIDJWK) :
  CreateDIDJWK k = Ok d ->
  exists bytes payload,
    jwk.MarshalJSON k = Ok bytes
    /\ d = ("did:jwk:" ++ payload)%string
    /\ Suffix d = Ok payload
    /\ forallb base64.inAlphabet (list_ascii_of_string payload) = true
    /\ String.length payload = (4 * List.length bytes + 2) / 3
    /\ base64.DecodeString payload = Ok bytes.
Proof.
  intro H. destruct (jwk.MarshalJSON k) as [bytes|err] eqn:Em.
  - rewrite (CreateDIDJWK_Ok _ _ Em) in H. injection H as <-.
    exists bytes, (base64.EncodeToString bytes).
    split; [reflexivity|]. split; [reflexivity|].
    split; [apply Suffix_Ok; exact (trimPrefix_append "did:jwk:" _)|].
    unfold base64.EncodeToString.
    rewrite list_ascii_of_string_of_list_ascii, length_string_of_list_ascii.
    split; [apply Encode_inAlphabet|]. split; [apply Encode_length|].
    apply DecodeString_EncodeToString.
  - unfold CreateDIDJWK in H. rewrite Em in H. discriminate.
Qed.

(** X3. [CreateDIDJWK] returns the same identifier for two keys, of
    any two implementations of the key interface, only if their
    serializations are the same bytes. *)
Theorem CreateDIDJWK_injective (K1 K2 : Type) (H1 : jwk.Key K1)
        (H2 : jwk.Key K2) (k1 : K1) (k2 : K2) (b1 b2 : list ascii) :
  jwk.MarshalJSON k1 = Ok b1 ->
  jwk.MarshalJSON k2 = Ok b2 ->
  CreateDIDJWK k1 = CreateDIDJWK k2 ->
  b1 = b2.
Proof.
  intros E1 E2 H.
  rewrite (CreateDIDJWK_Ok _ _ E1), (CreateDIDJWK_Ok _ _ E2) in H.
  injection H as H.
  apply (f_equal base64.DecodeString) in H.
  rewrite !DecodeString_EncodeToString in H. now injection H.
Qed.

(** X4. When [GenerateDIDJWK] succeeds, the key type is one of the
    supported types, the private key and the state of the random source
    are those the key generator returned, and the identifier is
    "did:jwk:" followed by the base64url text of the serialization of
    the converted public key. *)
Theorem GenerateDIDJWK_Ok (kt : KeyType) (rand rand' : Entropy)
        (privKey : PrivateKey) (d : DIDJWK) :
  GenerateDIDJWK kt rand = (Ok (privKey, d), rand') ->
  In kt GetSupportedDIDJWKTypes
  /\ exists pubKey pubKeyJWK bytes,
      GenerateKeyByKeyType kt rand = (Ok (pubKey, privKey), rand')
      /\ PublicKeyToJWK pubKey = Ok pubKeyJWK
      /\ jwk.MarshalJSON pubKeyJWK = Ok bytes
      /\ d = ("did:jwk:" ++ base64.EncodeToString bytes)%string.
Proof.
  unfold GenerateDIDJWK.
  destruct (isSupportedJWKType kt) eqn:Es; cbn [negb]; [|discriminate].
  apply rangeContains_In in Es.
  destruct (GenerateKeyByKeyType kt rand) as [[[pubKey priv]|err] r] eqn:Eg;
    [|discriminate].
  destruct (PublicKeyToJWK pubKey) as [pubKeyJWK|err] eqn:Ej;
    [|discriminate].
  destruct (jwk.MarshalJSON pubKeyJWK) as [bytes|err] eqn:Em.
  - rewrite (CreateDIDJWK_Ok _ _ Em). intros [= <- <- <-].
    split; [exact Es|]. exists pubKey, pubKeyJWK, bytes.
    repeat split; first [assumption | reflexivity].
  - unfold CreateDIDJWK. rewrite Em. discriminate.
Qed.

(** X5. An error of [GenerateDIDJWK] is one of four: the
    unsupported-type error, with the random source untouched; the
    error of the key generator, wrapped; the error of the conversion
    of the public key, wrapped; the error of the serialization,
    wrapped by [CreateDIDJWK] and wrapped again. *)
Theorem GenerateDIDJWK_Err (kt : KeyType) (rand rand' : Entropy)
        (e : error) :
  GenerateDIDJWK kt rand = (Err e, rand') ->
  (~ In kt GetSupportedDIDJWKTypes
   /\ e = Errorf ("unsupported did:jwk type: " ++ kt) /\ rand' = rand)
  \/ (exists err,
         GenerateKeyByKeyType kt rand = (Err err, rand')
         /\ e = Wrap err "generating key for did:jwk")
  \/ (exists pubKey privKey err,
         GenerateKeyByKeyType kt rand = (Ok (pubKey, privKey), rand')
         /\ PublicKeyToJWK pubKey = Err err
         /\ e = Wrap err "converting public key to JWK")
  \/ (exists pubKey privKey pubKeyJWK err,
         GenerateKeyByKeyType kt rand = (Ok (pubKey, privKey), rand')
         /\ PublicKeyToJWK pubKey = Ok pubKeyJWK
         /\ jwk.MarshalJSON pubKeyJWK = Err err
         /\ e = Wrap (Wrap err "marshalling public key JWK")
                  "creating did:jwk").
Proof.
  unfold GenerateDIDJWK.
  destruct (isSupportedJWKType kt) eqn:Es; cbn [negb].
  2:{ intros [= <- <-]. left. split; [|auto].
      intro H. apply rangeContains_In in H.
      change (rangeContains GetSupportedDIDJWKTypes kt = false) in Es.
      rewrite H in Es. discriminate Es. }
  destruct (GenerateKeyByKeyType kt rand) as [[[pubKey privKey]|err] r]
    eqn:Eg.
  2:{ intros [= <- <-]. right; left. eauto. }
  destruct (PublicKeyToJWK pubKey) as [pubKeyJWK|err] eqn:Ej.
  2:{ intros [= <- <-]. right; right; left.
      exists pubKey, privKey, err. repeat split; first [assumption | reflexivity]. }
  unfold CreateDIDJWK.
  destruct (jwk.MarshalJSON pubKeyJWK) as [bytes|err] eqn:Em;
    [discriminate|].
  intros [= <- <-]. right; right; right.
  exists pubKey, privKey, pubKeyJWK, err. repeat split; first [assumption | reflexivity].
Qed.

(** X7. In a document returned by [Expand], every reference of the
    five purpose lists is the id of a verification method of the
    document, and that method is controlled by the subject of the
    document. *)
Theorem Expand_references_resolve (d : DIDJWK) (doc : Document.t) :
  Expand d = Ok doc ->
  forall ref,
    In ref (Document.Authentication doc ++ Document.AssertionMethod doc
            ++ Document.KeyAgreement doc
            ++ Document.CapabilityInvocation doc
            ++ Document.CapabilityDelegation doc) ->
    exists vm,
      In vm (Document.VerificationMethod doc)
      /\ VerificationMethod.ID vm = ref
      /\ VerificationMethod.Controller vm = Document.ID doc.
Proof.
  intros H ref Hin. apply Expand_Decode in H. destruct H as (k & _ & ->).
  unfold expansion in *.
  cbn [Document.Authentication Document.AssertionMethod
       Document.KeyAgreement Document.CapabilityInvocation
       Document.CapabilityDelegation Document.VerificationMethod
       Document.ID] in *.
  eexists; split; [left; reflexivity|]. split; [|reflexivity].
  cbn [VerificationMethod.ID].
  unfold purpose in Hin.
  destruct (negb (String.eqb (jwx.Use k) "enc")),
           (negb (String.eqb (jwx.Use k) "sig"));
    cbn [app In] in Hin;
    repeat (destruct Hin as [Hin|Hin]; [exact Hin|]); contradiction.
Qed.

(** X8. In a document returned by [Expand], the assertion,
    capability-invocation and capability-delegation lists equal the
    authentication list; the authentication list and the key-agreement
    list are each empty or the single key reference, and they are
    never both empty. *)
Theorem Expand_purposes (d : DIDJWK) (doc : Document.t) :
  Expand d = Ok doc ->
  Document.AssertionMethod doc = Document.Authentication doc
  /\ Document.CapabilityInvocation doc = Document.Authentication doc
  /\ Document.CapabilityDelegation doc = Document.Authentication doc
  /\ (Document.Authentication doc = [(d ++ "#0")%string]
      \/ Document.KeyAgreement doc = [(d ++ "#0")%string])
  /\ (Document.Authentication doc = [] \/
      Document.Authentication doc = [(d ++ "#0")%string])
  /\ (Document.KeyAgreement doc = [] \/
      Document.KeyAgreement doc = [(d ++ "#0")%string]).
Proof.
  intros H. apply Expand_Decode in H. destruct H as (k & _ & ->).
  unfold expansion, purpose.
  cbn [Document.Authentication Document.AssertionMethod
       Document.KeyAgreement Document.CapabilityInvocation
       Document.CapabilityDelegation].
  destruct (String.eqb (jwx.Use k) "sig") eqn:Es.
  - apply String.eqb_eq in Es; rewrite Es. cbn. repeat split; auto.
  - destruct (String.eqb (jwx.Use k) "enc"); cbn; repeat split; auto.
Qed.

Lemma Expand_payload (payload : string) :
  Expand ("did:jwk:" ++ payload)%string =
  match base64.DecodeString payload with
  | Err err => Err (Wrap err "decoding did:jwk")
  | Ok bytes =>
      match jwx.Unmarshal bytes jwx.zero with
      | Err err => Err (Wrap err "unmarshalling did:jwk")
      | Ok k => Ok (expansion ("did:jwk:" ++ payload)%string k)
      end
  end.
Proof.
  rewrite Expand_stages.
  assert (Hs : Suffix ("did:jwk:" ++ payload)%string = Ok payload)
    by (apply Suffix_Ok; exact (trimPrefix_append "did:jwk:" _)).
  rewrite Hs. reflexivity.
Qed.

(** X9. For a string with the prefix "did:jwk:", [Expand] returns
    the wrapped illegal-base64 error exactly when the payload holds a
    character that is neither in the base64url alphabet nor a line
    break (a padding character included) or when its count of alphabet
    characters leaves the remainder 1 modulo 4. *)
Theorem Expand_decoding_error (payload : string) :
  (exists n,
      Expand ("did:jwk:" ++ payload)%string
      = Err (Wrap (CorruptInputError n) "decoding did:jwk"))
  <-> base64.wellFormed (list_ascii_of_string payload) = false.
Proof.
  rewrite Expand_payload, <- DecodeString_isOk.
  destruct (base64.DecodeString payload) as [bytes|err] eqn:E; cbn [isOk].
  - split; [|discriminate].
    intros (n & H). destruct (jwx.Unmarshal bytes jwx.zero); discriminate.
  - apply DecodeString_error in E. destruct E as (n & ->).
    split; [reflexivity | eauto].
Qed.

(** X10. [Expand] ignores the carriage returns and line feeds of
    the payload: a string with the prefix "did:jwk:" and the same
    string without the line breaks of its payload are both valid or
    both invalid; [Expand] returns two documents with the same key
    object, or two errors, which are equal unless both are the wrapped
    illegal-base64 error, whose offsets may differ. *)
Theorem Expand_ignores_line_breaks (payload : string) :
  IsValid ("did:jwk:" ++ payload)%string
  = IsValid ("did:jwk:" ++ base64.stripLineBreaks payload)%string
  /\ match Expand ("did:jwk:" ++ payload)%string,
           Expand ("did:jwk:" ++ base64.stripLineBreaks payload)%string with
     | Ok doc, Ok doc' =>
         map VerificationMethod.PublicKeyJWK (Document.VerificationMethod doc)
         = map VerificationMethod.PublicKeyJWK
             (Document.VerificationMethod doc')
     | Err e, Err e' =>
         e = e'
         \/ exists n n',
             e = Wrap (CorruptInputError n) "decoding did:jwk"
             /\ e' = Wrap (CorruptInputError n') "decoding did:jwk"
     | _, _ => False
     end.
Proof.
  unfold IsValid. rewrite !Expand_payload.
  pose proof (DecodeString_stripLineBreaks payload) as Hv.
  destruct (base64.DecodeString payload) as [bytes|err] eqn:E1,
           (base64.DecodeString (base64.stripLineBreaks payload))
             as [bytes'|err'] eqn:E2;
    cbn [value] in Hv; try discriminate Hv.
  - injection Hv as ->.
    destruct (jwx.Unmarshal bytes jwx.zero); split;
      first [exact eq_refl | left; exact eq_refl].
  - apply DecodeString_error in E1, E2.
    destruct E1 as (n & ->), E2 as (n' & ->).
    split; [reflexivity|]. right. exists n, n'. split; reflexivity.
Qed.

(** X11. The identifier of a key object is not unique: a line break
    appended to an identifier that decodes gives a different string
    that decodes to the same key object, and [Expand] accepts it and
    returns a document whose id, controller and key reference carry
    the line break. *)
Theorem Expand_not_canonical (d : DIDJWK) (k : jwx.PublicKeyJWK)
        (c : ascii) :
  base64.isLineBreak c = true ->
  Decode d = Ok k ->
  (d ++ String c "")%string <> d
  /\ Decode (d ++ String c "")%string = Ok k
  /\ exists doc,
      Expand (d ++ String c "")%string = Ok doc
      /\ Document.ID doc = (d ++ String c "")%string
      /\ Document.VerificationMethod doc =
         [ {| VerificationMethod.ID := (d ++ String c "" ++ "#0")%string;
              VerificationMethod.Type_ := JSONWebKey2020Type;
              VerificationMethod.Controller := (d ++ String c "")%string;
              VerificationMethod.PublicKeyJWK := Some k |} ].
Proof.
  intros Hc Hd.
  assert (Hd' : Decode (d ++ String c "")%string = Ok k).
  { unfold Decode in *.
    destruct (Suffix d) as [payload|] eqn:Es; [|discriminate].
    apply Suffix_Ok in Es.
    apply (trimPrefix_append_r (String c "")) in Es. apply Suffix_Ok in Es.
    rewrite Es. cbn [bind] in *.
    destruct (base64.DecodeString payload) as [bytes|err] eqn:Ed;
      [|discriminate].
    assert (Ed' : base64.DecodeString (payload ++ String c "") = Ok bytes).
    { apply value_Ok. apply value_Ok in Ed. rewrite <- Ed.
      unfold base64.DecodeString.
      rewrite list_ascii_of_string_app. cbn [list_ascii_of_string].
      now apply decodeLoop_trailing_lineBreak. }
    now rewrite Ed'. }
  split; [apply append_neq; discriminate|]. split; [exact Hd'|].
  exists (expansion (d ++ String c "")%string k).
  split; [now apply Decode_Expand|]. split; [reflexivity|].
  unfold expansion. cbn [Document.VerificationMethod].
  now rewrite string_append_assoc.
Qed.

(** X12. The use member of the serialization of a key decides the
    purposes of the document of its identifier.  For every key, of any
    implementation of the key interface, whose serialized bytes are
    read as a key object, [CreateDIDJWK] returns an identifier and
    [Expand] of it a document, which has no key agreement when the use
    read is "sig", key agreement only when it is "enc", and both
    otherwise. *)
Theorem usage_hint_round_trip (K : Type) (HK : jwk.Key K) (key : K)
        (bytes : list ascii) (k : jwx.PublicKeyJWK) :
  jwk.MarshalJSON key = Ok bytes ->
  jwx.Unmarshal bytes jwx.zero = Ok k ->
  exists d doc,
    CreateDIDJWK key = Ok d
    /\ Expand d = Ok doc
    /\ (jwx.Use k = "sig" ->
        Document.KeyAgreement doc = []
        /\ Document.Authentication doc = [(d ++ "#0")%string])
    /\ (jwx.Use k = "enc" ->
        Document.KeyAgreement doc = [(d ++ "#0")%string]
        /\ Document.Authentication doc = [])
    /\ (jwx.Use k <> "sig" -> jwx.Use k <> "enc" ->
        Document.KeyAgreement doc = [(d ++ "#0")%string]
        /\ Document.Authentication doc = [(d ++ "#0")%string]).
Proof.
  intros Hm Hk.
  exists ("did:jwk:" ++ base64.EncodeToString bytes)%string,
         (expansion ("did:jwk:" ++ base64.EncodeToString bytes)%string k).
  split; [now apply CreateDIDJWK_Ok|].
  split; [now rewrite Expand_identifier, Hk|].
  unfold expansion, purpose.
  cbn [Document.KeyAgreement Document.Authentication].
  repeat split; intros.
  1-4: match goal with H : jwx.Use _ = _ |- _ => rewrite H end; reflexivity.
  all: match goal with
       | N1 : jwx.Use _ <> "sig", N2 : jwx.Use _ <> "enc" |- _ =>
           apply String.eqb_neq in N1, N2; rewrite ?N1, ?N2; reflexivity
       end.
Qed.

(** X13. The order in which an implementation of the key interface
    writes the members of a key object does not matter: the
    identifier of a serialization that holds the fields of a key
    object in any order decodes to that key object (coerced to valid
    UTF-8) and expands to its document. *)
Theorem member_order_irrelevant (K : Type) (HK : jwk.Key K) (key : K)
        (k : jwx.PublicKeyJWK) (fs : list (string * string)) :
  Permutation fs (jwx.fields k) ->
  jwk.MarshalJSON key
    = Ok ("{"%char :: jwx.appendMembers true fs ++ ["}"%char]) ->
  exists d,
    CreateDIDJWK key = Ok d
    /\ Decode d = Ok (jwx.coerceKey k)
    /\ Expand d = Ok (expansion d (jwx.coerceKey k)).
Proof.
  intros Hp Hm.
  exists ("did:jwk:" ++ base64.EncodeToString
            ("{"%char :: jwx.appendMembers true fs ++ ["}"%char]))%string.
  assert (Hd : Decode ("did:jwk:" ++ base64.EncodeToString
                 ("{"%char :: jwx.appendMembers true fs ++ ["}"%char]))%string
               = Ok (jwx.coerceKey k)).
  { rewrite Decode_identifier. now apply Unmarshal_Permutation. }
  split; [now apply CreateDIDJWK_Ok|]. split; [exact Hd|].
  now apply Decode_Expand.
Qed.

(** X14. [Expand] accepts no string with a fragment: a string that
    holds the character #, such as the key reference of a document,
    is not valid, and the error is one of the first three, never the
    one of the JSON text. *)
Theorem Expand_rejects_fragment (d : DIDJWK) (fragment : string) :
  IsValid (d ++ String "#" fragment)%string = false
  /\ exists e,
      Expand (d ++ String "#" fragment)%string = Err e
      /\ (e = Errorf ("not a did:jwk DID, invalid prefix: "
                        ++ (d ++ String "#" fragment))
          \/ e = Wrap (Errorf ("invalid did:jwk: "
                                 ++ (d ++ String "#" fragment)))
                   "reading suffix"
          \/ exists n, e = Wrap (CorruptInputError n) "decoding did:jwk").
Proof.
  assert (H : exists e,
      Expand (d ++ String "#" fragment)%string = Err e
      /\ (e = Errorf ("not a did:jwk DID, invalid prefix: "
                        ++ (d ++ String "#" fragment))
          \/ e = Wrap (Errorf ("invalid did:jwk: "
                                 ++ (d ++ String "#" fragment)))
                   "reading suffix"
          \/ exists n, e = Wrap (CorruptInputError n) "decoding did:jwk")).
  { rewrite Expand_stages.
    destruct (negb (strings.HasPrefix (d ++ String "#" fragment) JWKPrefix));
      [eauto|].
    unfold Suffix, strings.CutPrefix.
    destruct (strings.trimPrefix (d ++ String "#" fragment)
                (JWKPrefix ++ ":")%string) as [r|] eqn:Et; [|eauto].
    apply trimPrefix_append_inv in Et.
    2:{ intros a Ha. cbn in Ha.
        repeat (destruct Ha as [<-|Ha]; [reflexivity|]). contradiction. }
    destruct Et as (r' & _ & ->).
    pose proof (wellFormed_fragment r' fragment) as Hw.
    rewrite <- DecodeString_isOk in Hw.
    destruct (base64.DecodeString (r' ++ String "#" fragment)) as [b|err]
      eqn:Ed; [discriminate|].
    apply DecodeString_error in Ed. destruct Ed as (n & ->).
    eexists; split; [reflexivity|]. right; right. eauto. }
  split; [|exact H].
  destruct H as (e & He & _). unfold IsValid. now rewrite He.
Qed.

(** X6. [GenerateDIDJWK] does not check the identifier it returns.
    The identifier is the one [CreateDIDJWK] gives for the converted
    public key, and decoding it is deserializing the serialization of
    that key: when the serialized bytes are read as a key object, the
    identifier is valid and [Resolve] returns the document of that key
    object; when they are not, the identifier that was returned
    without an error is not valid and [Resolve] returns the error of
    the deserialization, wrapped twice. *)
Theorem generated_identifier_resolves (kt : KeyType) (rand rand' : Entropy)
        (privKey : PrivateKey) (d : DIDJWK) :
  GenerateDIDJWK kt rand = (Ok (privKey, d), rand') ->
  exists pubKey pubKeyJWK bytes,
    GenerateKeyByKeyType kt rand = (Ok (pubKey, privKey), rand')
    /\ PublicKeyToJWK pubKey = Ok pubKeyJWK
    /\ jwk.MarshalJSON pubKeyJWK = Ok bytes
    /\ CreateDIDJWK pubKeyJWK = Ok d
    /\ Decode d = jwx.Unmarshal bytes jwx.zero
    /\ (forall k,
          jwx.Unmarshal bytes jwx.zero = Ok k ->
          IsValid d = true
          /\ Resolve d
             = Ok {| ResolutionResult.Document := expansion d k |})
    /\ (forall err,
          jwx.Unmarshal bytes jwx.zero = Err err ->
          IsValid d = false
          /\ Resolve d
             = Err (Wrap (Wrap err "unmarshalling did:jwk")
                      "expanding did:jwk")).
Proof.
  unfold GenerateDIDJWK.
  destruct (isSupportedJWKType kt); cbn [negb]; [|discriminate].
  destruct (GenerateKeyByKeyType kt rand) as [[[pubKey priv]|err] r] eqn:Eg;
    [|discriminate].
  destruct (PublicKeyToJWK pubKey) as [pubKeyJWK|err] eqn:Ej;
    [|discriminate].
  destruct (jwk.MarshalJSON pubKeyJWK) as [bytes|err] eqn:Em.
  2:{ unfold CreateDIDJWK. rewrite Em. discriminate. }
  pose proof (CreateDIDJWK_Ok _ _ Em) as Hc. rewrite Hc.
  intro H.
  assert (Hp : priv = privKey) by congruence.
  assert (Hr : r = rand') by congruence.
  assert (Hd : d = ("did:jwk:" ++ base64.EncodeToString bytes)%string)
    by congruence.
  subst priv r d. clear H.
  exists pubKey, pubKeyJWK, bytes.
  split; [reflexivity|]. split; [exact Ej|]. split; [exact Em|].
  split; [exact Hc|]. split; [apply Decode_identifier|].
  unfold IsValid, Resolve. rewrite Expand_identifier.
  split; intros ? Hu; rewrite Hu; split; reflexivity.
Qed.

End JWKExtras.



(** ** The theorems at concrete identifiers *)

Lemma Expand_usage_hint_witness :
  Decode sigDID = Ok (keyWithUse "sig")
  /\ exists doc,
      Expand "https://www.w3.org/ns/did/v1" "JsonWebKey2020" sigDID = Ok doc
      /\ Document.KeyAgreement doc = []
      /\ Document.Authentication doc = ["did:jwk:eyJ1c2UiOiJzaWcifQ#0"].
Proof.
  split; [reflexivity|].
  destruct (Expand_usage_hint "https://www.w3.org/ns/did/v1"
              "JsonWebKey2020" sigDID (k := keyWithUse "sig") eq_refl)
    as (doc & He & Hsig & _).
  exists doc; split; [exact He|].
  destruct (Hsig eq_refl) as (Hk & Ha & _); split; assumption.
Defined.

Lemma Expand_document_shape_witness :
  Decode okpDID = Ok okpKey
  /\ exists doc,
      Expand "https://www.w3.org/ns/did/v1" "JsonWebKey2020" okpDID = Ok doc
      /\ Document.ID doc = okpDID
      /\ List.length (Document.VerificationMethod doc) = 1.
Proof.
  split; [reflexivity|].
  destruct (Expand_document_shape "https://www.w3.org/ns/did/v1"
              "JsonWebKey2020" okpDID (k := okpKey) eq_refl)
    as (doc & He & Hid & Hvm & _).
  exists doc; split; [exact He|]. split; [exact Hid|].
  rewrite Hvm; reflexivity.
Defined.

Lemma Expand_total_deterministic_witness :
  Decode encDID = Ok (keyWithUse "enc")
  /\ Expand "https://www.w3.org/ns/did/v1" "JsonWebKey2020" encDID
     = Ok (expansion "https://www.w3.org/ns/did/v1" "JsonWebKey2020" encDID
             (keyWithUse "enc")).
Proof.
  split; [reflexivity|].
  apply (Expand_total_deterministic "https://www.w3.org/ns/did/v1"
           "JsonWebKey2020" encDID (k := keyWithUse "enc") eq_refl).
Defined.

Lemma Expand_gates_witness :
  failingGate "did:jwk:" = Some PayloadGate
  /\ exists e,
      Expand "https://www.w3.org/ns/did/v1" "JsonWebKey2020" "did:jwk:"
        = Err e
      /\ errorGate e = Some JSONGate.
Proof.
  split; [reflexivity|].
  pose proof (Expand_gates "https://www.w3.org/ns/did/v1" "JsonWebKey2020"
                "did:jwk:") as H.
  change (failingGate "did:jwk:") with (Some PayloadGate) in H.
  destruct H as (e & He & Hg & _).
  exists e; split; [exact He | exact Hg].
Defined.

Lemma resolver_contract_witness :
  Decode sigDID = Ok (keyWithUse "sig")
  /\ Resolve "https://www.w3.org/ns/did/v1" "JsonWebKey2020" sigDID
     = Ok {| ResolutionResult.Document :=
               expansion "https://www.w3.org/ns/did/v1" "JsonWebKey2020"
                 sigDID (keyWithUse "sig") |}
  /\ Decode "did:web:example.com"
     = Err (Errorf "invalid did:jwk: did:web:example.com")
  /\ exists err,
      Resolve "https://www.w3.org/ns/did/v1" "JsonWebKey2020"
        "did:web:example.com" = Err (Wrap err "expanding did:jwk").
Proof.
  split; [reflexivity|].
  destruct (resolver_contract "https://www.w3.org/ns/did/v1"
              "JsonWebKey2020" "jwk") as (_ & _ & H).
  split; [|split; [reflexivity|]].
  - destruct (H sigDID) as (_ & Hok & _). exact (Hok _ eq_refl).
  - destruct (H "did:web:example.com") as (_ & _ & Herr).
    exact (Herr _ eq_refl).
Defined.

(** A generation request for a tag outside the list, with a generator
    that counts its calls and a key that is serialized to the text it
    holds: the count stays where it was. *)
Lemma unsupported_type_rejected_witness :
  ~ In "BLS12381G1"
      (GetSupportedDIDJWKTypes "Ed25519" "X25519" "secp256k1" "P-256"
         "P-384" "P-521" "RSA")
  /\ GenerateDIDJWK
       (JWKKey_Key := {| jwk.MarshalJSON := fun text : list ascii => Ok text |})
       "Ed25519" "X25519" "secp256k1" "P-256" "P-384" "P-521" "RSA"
       (fun (kt : KeyType) (calls : nat) =>
          (Ok ("public key", "private key"), S calls))
       (fun pubKey : string => Ok okpText)
       "BLS12381G1" 0
     = (Err (Errorf "unsupported did:jwk type: BLS12381G1"), 0).
Proof.
  assert (Hn : ~ In "BLS12381G1"
                 (GetSupportedDIDJWKTypes "Ed25519" "X25519" "secp256k1"
                    "P-256" "P-384" "P-521" "RSA")).
  { intro H; repeat (destruct H as [H|H]; [discriminate H|]); exact H. }
  split; [exact Hn|].
  apply (unsupported_type_rejected "Ed25519" "X25519" "secp256k1" "P-256"
           "P-384" "P-521" "RSA"
           (JWKKey_Key := {| jwk.MarshalJSON := fun text : list ascii => Ok text |})
           (fun (kt : KeyType) (calls : nat) =>
              (Ok ("public key", "private key"), S calls))
           (fun pubKey : string => Ok okpText)).
  exact Hn.
Defined.

(** A key that is serialized to the text of the Ed25519 key: its
    identifier decodes to the key object of that text. *)
Lemma round_trip_witness :
  jwx.validKey okpKey = true
  /\ okpText = "{"%char :: jwx.appendMembers true (jwx.fields okpKey)
                 ++ ["}"%char]
  /\ exists d,
      @CreateDIDJWK _ {| jwk.MarshalJSON := fun text : list ascii => Ok text |}
        okpText = Ok d
      /\ Decode d = Ok okpKey
      /\ exists doc,
          Expand "https://www.w3.org/ns/did/v1" "JsonWebKey2020" d = Ok doc
          /\ map VerificationMethod.PublicKeyJWK
               (Document.VerificationMethod doc) = [Some okpKey].
Proof.
  split; [reflexivity|]. split; [reflexivity|].
  destruct (@round_trip "https://www.w3.org/ns/did/v1" "JsonWebKey2020" _
              {| jwk.MarshalJSON := fun text : list ascii => Ok text |}
              okpText okpText eq_refl)
    as (d & Hc & Hd & Hok & _ & Hk).
  pose proof (Hk okpKey (jwx.fields okpKey) eq_refl
                (Permutation_refl _) eq_refl) as Hdk.
  exists d. split; [exact Hc|]. split; [exact Hdk|].
  apply Hok. rewrite <- Hd. exact Hdk.
Defined.

(** A key that is serialized to the text of the key on the curve
    P-224. *)
Lemma no_key_type_check_witness :
  ~ In (jwx.CRV p224Key)
      (GetSupportedDIDJWKTypes "Ed25519" "X25519" "secp256k1" "P-256"
         "P-384" "P-521" "RSA")
  /\ jwx.Unmarshal p224Text jwx.zero = Ok p224Key
  /\ exists d,
      @CreateDIDJWK _ {| jwk.MarshalJSON := fun text : list ascii => Ok text |}
        p224Text = Ok d
      /\ IsValid "https://www.w3.org/ns/did/v1" "JsonWebKey2020" d = true
      /\ Decode d = Ok p224Key.
Proof.
  split.
  { intro H; repeat (destruct H as [H|H]; [discriminate H|]); exact H. }
  split; [reflexivity|].
  destruct (@no_key_type_check "https://www.w3.org/ns/did/v1" "JsonWebKey2020" _
              {| jwk.MarshalJSON := fun text : list ascii => Ok text |}
              p224Text p224Text eq_refl)
    as (d & Hc & Hd & Hv & _).
  exists d. split; [exact Hc|]. split.
  - apply Hv. exists p224Key. reflexivity.
  - exact Hd.
Defined.

(** C2, as the claim states it: for every key whose serialization
    succeeds, expanding the identifier of the key gives a document
    that embeds a key object.  The key whose serialization is the
    object with the number 1 for the member y is serialized without
    error and gets an identifier, and [Expand] rejects that
    identifier, since the member y of the key-object shape is a
    string. *)
Lemma round_trip_numeric_member :
  ~ (forall (K : Type) (HK : jwk.Key K) (key : K) (bytes : list ascii),
        jwk.MarshalJSON key = Ok bytes ->
        exists d doc k,
          CreateDIDJWK key = Ok d
          /\ Expand "https://www.w3.org/ns/did/v1" "JsonWebKey2020" d
             = Ok doc
          /\ map VerificationMethod.PublicKeyJWK
               (Document.VerificationMethod doc) = [Some k]).
Proof.
  intro H.
  destruct (H _ {| jwk.MarshalJSON := fun text : list ascii => Ok text |}
              numericText numericText eq_refl)
    as (d & doc & k & Hc & He & _).
  assert (Hd : d = "did:jwk:eyJrdHkiOiJPS1AiLCJ5IjoxfQ").
  { change (Ok "did:jwk:eyJrdHkiOiJPS1AiLCJ5IjoxfQ" = Ok d) in Hc.
    congruence. }
  subst d. vm_compute in He. discriminate He.
Qed.

(** C9, as the claim states it: for every key whose serialization
    succeeds, the identifier that [CreateDIDJWK] returns decodes and
    expands.  The identifier of the same key does neither. *)
Lemma serialization_not_enough :
  ~ (forall (K : Type) (HK : jwk.Key K) (key : K) (bytes : list ascii),
        jwk.MarshalJSON key = Ok bytes ->
        exists d,
          CreateDIDJWK key = Ok d
          /\ (exists k, Decode d = Ok k)
          /\ (exists doc,
                Expand "https://www.w3.org/ns/did/v1" "JsonWebKey2020" d
                = Ok doc)).
Proof.
  intro H.
  destruct (H _ {| jwk.MarshalJSON := fun text : list ascii => Ok text |}
              numericText numericText eq_refl)
    as (d & Hc & (k & Hk) & _).
  assert (Hd : d = "did:jwk:eyJrdHkiOiJPS1AiLCJ5IjoxfQ").
  { change (Ok "did:jwk:eyJrdHkiOiJPS1AiLCJ5IjoxfQ" = Ok d) in Hc.
    congruence. }
  subst d. vm_compute in Hk. discriminate Hk.
Qed.

Example numeric_member_identifier :
  @CreateDIDJWK _ {| jwk.MarshalJSON := fun text : list ascii => Ok text |}
    numericText = Ok "did:jwk:eyJrdHkiOiJPS1AiLCJ5IjoxfQ"
  /\ Expand "https://www.w3.org/ns/did/v1" "JsonWebKey2020"
       "did:jwk:eyJrdHkiOiJPS1AiLCJ5IjoxfQ"
     = Err (Wrap JSONError "unmarshalling did:jwk").
Proof. split; reflexivity. Qed.

(** C4, as the claim states it: every identifier that fails a gate of
    the specification gets an error that names that gate.  The
    identifier without payload fails the payload gate and gets the error
    of the JSON check; no error of [Expand] names the payload gate. *)
Lemma no_payload_gate :
  ~ (forall d : DIDJWK,
        match failingGate d with
        | None => True
        | Some gate =>
            exists e,
              Expand "https://www.w3.org/ns/did/v1" "JsonWebKey2020" d
                = Err e
              /\ errorGate e = Some gate
        end).
Proof.
  intro H; specialize (H "did:jwk:").
  destruct H as (e & He & Hg).
  change (Expand "https://www.w3.org/ns/did/v1" "JsonWebKey2020" "did:jwk:")
    with (@Err Document.t (Wrap JSONError "unmarshalling did:jwk")) in He.
  injection He as <-. discriminate Hg.
Qed.

Example base64_e30 :
  base64.DecodeString "e30" = Ok (list_ascii_of_string "{}").
Proof. reflexivity. Qed.

Example base64_enc :
  base64.EncodeToString (list_ascii_of_string "did:jwk") = "ZGlkOmp3aw".
Proof. reflexivity. Qed.

Example utf8_roundtrip_samples :
  map (fun r => utf8.DecodeRune (utf8.EncodeRune r))
      [0x41; 0xE9; 0x2028; 0xFFFD; 0x1F600]%N
  = [(0x41%N, 1); (0xE9%N, 2); (0x2028%N, 3); (0xFFFD%N, 3); (0x1F600%N, 4)].
Proof. reflexivity. Qed.

Example json_decode_sample :
  json.decode (list_ascii_of_string " {a:1}") = Err JSONError
  /\ json.decode (list_ascii_of_string "{ } ") = Ok (json.Object [])
  /\ json.decode (list_ascii_of_string "[1, -2.5e+3, true, null, {}]")
     = Ok (json.Array
             [json.Number (list_ascii_of_string "1");
              json.Number (list_ascii_of_string "-2.5e+3");
              json.Bool true; json.Null; json.Object []])
  /\ json.decode [] = Err JSONError
  /\ json.decode (list_ascii_of_string "{}x") = Err JSONError.
Proof. repeat split. Qed.

Example unmarshal_samples :
  jwx.Unmarshal (list_ascii_of_string "{}") jwx.zero = Ok jwx.zero
  /\ jwx.Unmarshal (list_ascii_of_string "null") jwx.zero = Ok jwx.zero
  /\ jwx.Unmarshal [] jwx.zero = Err JSONError
  /\ jwx.Unmarshal (list_ascii_of_string "[]") jwx.zero = Err JSONError
  /\ jwx.Unmarshal (list_ascii_of_string "{") jwx.zero = Err JSONError.
Proof. repeat split. Qed.

Example appendMembers_sample :
  "{"%char
  :: jwx.appendMembers true
       (jwx.fields
          {| jwx.KTY := "OKP"; jwx.CRV := "Ed25519"; jwx.X := "11qY";
             jwx.Y := ""; jwx.N := ""; jwx.E := ""; jwx.Use := "" |})
  ++ ["}"%char]
  = jsonText "{'kty':'OKP','crv':'Ed25519','x':'11qY'}".
Proof. reflexivity. Qed.

(** The offset of the decoder's error: the index of the character
    outside the alphabet, line breaks counted, or the end of the input
    less one for a quantum of one character. *)
Example base64_offsets :
  map base64.DecodeString
      ["!"; String "010" "!"; "A"; String "A" (String "010" "");
       "AAAA="; "AAAAA"]
  = [Err (CorruptInputError 0); Err (CorruptInputError 1);
     Err (CorruptInputError 0); Err (CorruptInputError 1);
     Err (CorruptInputError 4); Err (CorruptInputError 4)].
Proof. reflexivity. Qed.

Example appendString_samples :
  json.appendString "a<b" =
    json.quote :: list_ascii_of_string "a\u003cb" ++ [json.quote]
  /\ json.appendString (String "255" "z") =
    json.quote :: list_ascii_of_string "\ufffdz" ++ [json.quote]
  /\ json.appendString (String "195" (String "169" "")) =
    [json.quote; "195"%char; "169"%char; json.quote]
  /\ json.appendString (String "226" (String "128" (String "168" ""))) =
    json.quote :: list_ascii_of_string "\u2028" ++ [json.quote]
  /\ json.appendString (String json.quote (String "010" "\")) =
    json.quote :: "\"%char :: json.quote
      :: list_ascii_of_string "\n\\" ++ [json.quote].
Proof. repeat split. Qed.

Example error_texts :
  map (fun d =>
         match Expand "https://www.w3.org/ns/did/v1" "JsonWebKey2020" d with
         | Ok _ => "no error"
         | Err e => ErrorText e
         end)
      ["did:web:example.com"; "did:jwk"; "did:jwk:!"; "did:jwk:"; "did:jwk:e30"]
  = ["not a did:jwk DID, invalid prefix: did:web:example.com";
     "reading suffix: invalid did:jwk: did:jwk";
     "decoding did:jwk: illegal base64 data at input byte 0";
     "unmarshalling did:jwk: invalid JSON";
     "no error"].
Proof. reflexivity. Qed.

(** ** The further properties at concrete inputs *)

(** In the examples a key of the key interface is a key that is
    serialized to the text it holds. *)
Lemma CreateDIDJWK_format_witness :
  @CreateDIDJWK _ {| jwk.MarshalJSON := fun text : list ascii => Ok text |}
    okpText = Ok okpDID
  /\ exists payload,
      okpDID = ("did:jwk:" ++ payload)%string
      /\ Suffix okpDID = Ok payload
      /\ forallb base64.inAlphabet (list_ascii_of_string payload) = true
      /\ String.length payload = ((4 * List.length okpText + 2) / 3)%nat
      /\ base64.DecodeString payload = Ok okpText.
Proof.
  split; [reflexivity|].
  destruct (@CreateDIDJWK_format _
              {| jwk.MarshalJSON := fun text : list ascii => Ok text |}
              okpText okpDID eq_refl)
    as (bytes & payload & Hm & Hd & Hs & Ha & Hl & Hb).
  assert (E : bytes = okpText).
  { change (Ok okpText = Ok bytes) in Hm. congruence. }
  subst bytes. exists payload. repeat split; assumption.
Defined.

(** A key that holds the text of the Ed25519 key and a key that holds
    the key object and writes its fields have one identifier. *)
Lemma CreateDIDJWK_injective_witness :
  @CreateDIDJWK _ {| jwk.MarshalJSON := fun text : list ascii => Ok text |}
    okpText
  = @CreateDIDJWK _
      {| jwk.MarshalJSON := fun k : jwx.PublicKeyJWK =>
             Ok ("{"%char :: jwx.appendMembers true (jwx.fields k)
                   ++ ["}"%char]) |}
      okpKey
  /\ okpText
     = "{"%char :: jwx.appendMembers true (jwx.fields okpKey) ++ ["}"%char].
Proof.
  split; [reflexivity|].
  exact (@CreateDIDJWK_injective _ _
           {| jwk.MarshalJSON := fun text : list ascii => Ok text |}
           {| jwk.MarshalJSON := fun k : jwx.PublicKeyJWK =>
             Ok ("{"%char :: jwx.appendMembers true (jwx.fields k)
                   ++ ["}"%char]) |}
           okpText okpKey _ _ eq_refl eq_refl eq_refl).
Defined.

Lemma GenerateDIDJWK_Ok_witness :
  GenerateDIDJWK
    (JWKKey_Key := {| jwk.MarshalJSON := fun text : list ascii => Ok text |})
    "Ed25519" "X25519" "secp256k1" "P-256" "P-384" "P-521" "RSA"
    (fun (kt : KeyType) (calls : nat) =>
       (Ok ("public key", "private key"), S calls))
    (fun pubKey : string => Ok okpText)
    "Ed25519" 0%nat
  = (Ok ("private key", okpDID), 1%nat)
  /\ In "Ed25519"
       (GetSupportedDIDJWKTypes "Ed25519" "X25519" "secp256k1" "P-256" "P-384" "P-521" "RSA")
  /\ okpDID = ("did:jwk:" ++ base64.EncodeToString okpText)%string.
Proof.
  split; [reflexivity|].
  destruct (@GenerateDIDJWK_Ok "Ed25519" "X25519" "secp256k1" "P-256" "P-384" "P-521" "RSA" _ _ _ _
              {| jwk.MarshalJSON := fun text : list ascii => Ok text |}
              (fun (kt : KeyType) (calls : nat) =>
                 (Ok ("public key", "private key"), S calls))
              (fun pubKey : string => Ok okpText)
              "Ed25519" 0%nat 1%nat "private key" okpDID eq_refl)
    as (Hin & pubKey & pubKeyJWK & bytes & Hg & Hj & Hm & Hd).
  split; [exact Hin|].
  assert (E : bytes = okpText).
  { change (Ok okpText = Ok pubKeyJWK) in Hj.
    change (Ok pubKeyJWK = Ok bytes) in Hm. congruence. }
  subst bytes. exact Hd.
Defined.

(** A conversion that knows no key: the error of the conversion comes
    back wrapped, after the generator has drawn from the random
    source. *)
Lemma GenerateDIDJWK_Err_witness :
  GenerateDIDJWK
    (JWKKey_Key := {| jwk.MarshalJSON := fun text : list ascii => Ok text |})
    "Ed25519" "X25519" "secp256k1" "P-256" "P-384" "P-521" "RSA"
    (fun (kt : KeyType) (calls : nat) =>
       (Ok ("public key", "private key"), S calls))
    (fun pubKey : string => Err (Errorf "unsupported public key type"))
    "RSA" 0%nat
  = (Err (Wrap (Errorf "unsupported public key type")
            "converting public key to JWK"), 1%nat)
  /\ exists err,
      Wrap (Errorf "unsupported public key type")
        "converting public key to JWK"
      = Wrap err "converting public key to JWK".
Proof.
  split; [reflexivity|].
  destruct (@GenerateDIDJWK_Err "Ed25519" "X25519" "secp256k1" "P-256" "P-384" "P-521" "RSA" _ _ _ _
              {| jwk.MarshalJSON := fun text : list ascii => Ok text |}
              (fun (kt : KeyType) (calls : nat) =>
                 (Ok ("public key", "private key"), S calls))
              (fun pubKey : string =>
                 Err (Errorf "unsupported public key type"))
              "RSA" 0%nat 1%nat _ eq_refl)
    as [(_ & He & _)|[(err & Hg & _)
        |[(pk & sk & err & _ & _ & He)|(pk & sk & k & err & _ & Hj & _)]]].
  - discriminate He.
  - discriminate Hg.
  - exists err. exact He.
  - discriminate Hj.
Defined.

Lemma generated_identifier_resolves_witness :
  GenerateDIDJWK
    (JWKKey_Key := {| jwk.MarshalJSON := fun text : list ascii => Ok text |})
    "Ed25519" "X25519" "secp256k1" "P-256" "P-384" "P-521" "RSA"
    (fun (kt : KeyType) (calls : nat) =>
       (Ok ("public key", "private key"), S calls))
    (fun pubKey : string => Ok okpText)
    "Ed25519" 0%nat
  = (Ok ("private key", okpDID), 1%nat)
  /\ jwx.Unmarshal okpText jwx.zero = Ok okpKey
  /\ IsValid "https://www.w3.org/ns/did/v1" "JsonWebKey2020" okpDID = true
  /\ Resolve "https://www.w3.org/ns/did/v1" "JsonWebKey2020" okpDID
     = Ok {| ResolutionResult.Document :=
               expansion "https://www.w3.org/ns/did/v1" "JsonWebKey2020"
                 okpDID okpKey |}.
Proof.
  split; [reflexivity|]. split; [reflexivity|].
  destruct (@generated_identifier_resolves "https://www.w3.org/ns/did/v1" "JsonWebKey2020"
              "Ed25519" "X25519" "secp256k1" "P-256" "P-384" "P-521" "RSA" _ _ _ _
              {| jwk.MarshalJSON := fun text : list ascii => Ok text |}
              (fun (kt : KeyType) (calls : nat) =>
                 (Ok ("public key", "private key"), S calls))
              (fun pubKey : string => Ok okpText)
              "Ed25519" 0%nat 1%nat "private key" okpDID eq_refl)
    as (pubKey & pubKeyJWK & bytes & _ & Hj & Hm & _ & _ & Hok & _).
  assert (E : bytes = okpText).
  { change (Ok okpText = Ok pubKeyJWK) in Hj.
    change (Ok pubKeyJWK = Ok bytes) in Hm. congruence. }
  subst bytes. exact (Hok okpKey eq_refl).
Defined.

Lemma Expand_references_resolve_witness :
  Expand "https://www.w3.org/ns/did/v1" "JsonWebKey2020" sigDID
  = Ok (expansion "https://www.w3.org/ns/did/v1" "JsonWebKey2020" sigDID
          (keyWithUse "sig"))
  /\ exists vm,
      In vm (Document.VerificationMethod
               (expansion "https://www.w3.org/ns/did/v1" "JsonWebKey2020"
                  sigDID (keyWithUse "sig")))
      /\ VerificationMethod.ID vm = "did:jwk:eyJ1c2UiOiJzaWcifQ#0"
      /\ VerificationMethod.Controller vm = sigDID.
Proof.
  split; [reflexivity|].
  apply (@Expand_references_resolve "https://www.w3.org/ns/did/v1"
           "JsonWebKey2020" sigDID _ eq_refl "did:jwk:eyJ1c2UiOiJzaWcifQ#0").
  left; reflexivity.
Defined.

Lemma Expand_purposes_witness :
  Expand "https://www.w3.org/ns/did/v1" "JsonWebKey2020" encDID
  = Ok (expansion "https://www.w3.org/ns/did/v1" "JsonWebKey2020" encDID
          (keyWithUse "enc"))
  /\ Document.AssertionMethod
       (expansion "https://www.w3.org/ns/did/v1" "JsonWebKey2020" encDID
          (keyWithUse "enc"))
     = Document.Authentication
         (expansion "https://www.w3.org/ns/did/v1" "JsonWebKey2020" encDID
            (keyWithUse "enc")).
Proof.
  split; [reflexivity|].
  apply (@Expand_purposes "https://www.w3.org/ns/did/v1" "JsonWebKey2020"
           encDID _ eq_refl).
Defined.

(** A payload with a padding character. *)
Lemma Expand_decoding_error_witness :
  base64.wellFormed (list_ascii_of_string "e30=") = false
  /\ exists n,
      Expand "https://www.w3.org/ns/did/v1" "JsonWebKey2020" "did:jwk:e30="
      = Err (Wrap (CorruptInputError n) "decoding did:jwk").
Proof.
  split; [reflexivity|].
  apply (Expand_decoding_error "https://www.w3.org/ns/did/v1" "JsonWebKey2020"
           "e30="). reflexivity.
Defined.

Lemma Expand_not_canonical_witness :
  base64.isLineBreak "010" = true
  /\ Decode sigDID = Ok (keyWithUse "sig")
  /\ Decode (sigDID ++ String "010" "")%string = Ok (keyWithUse "sig")
  /\ exists doc,
      Expand "https://www.w3.org/ns/did/v1" "JsonWebKey2020"
        (sigDID ++ String "010" "")%string = Ok doc
      /\ Document.ID doc = (sigDID ++ String "010" "")%string.
Proof.
  split; [reflexivity|]. split; [reflexivity|].
  destruct (@Expand_not_canonical "https://www.w3.org/ns/did/v1"
              "JsonWebKey2020" sigDID (keyWithUse "sig") "010" eq_refl
              eq_refl)
    as (_ & Hd & doc & He & Hid & _).
  split; [exact Hd|]. exists doc; split; assumption.
Defined.

Lemma usage_hint_round_trip_witness :
  jwx.Unmarshal encText jwx.zero = Ok (keyWithUse "enc")
  /\ exists d doc,
      @CreateDIDJWK _ {| jwk.MarshalJSON := fun text : list ascii => Ok text |}
        encText = Ok d
      /\ Expand "https://www.w3.org/ns/did/v1" "JsonWebKey2020" d = Ok doc
      /\ Document.KeyAgreement doc = [(d ++ "#0")%string]
      /\ Document.Authentication doc = [].
Proof.
  split; [reflexivity|].
  destruct (@usage_hint_round_trip "https://www.w3.org/ns/did/v1" "JsonWebKey2020" _
              {| jwk.MarshalJSON := fun text : list ascii => Ok text |}
              encText encText (keyWithUse "enc") eq_refl eq_refl)
    as (d & doc & Hc & He & _ & Henc & _).
  exists d, doc. split; [exact Hc|]. split; [exact He|].
  exact (Henc eq_refl).
Defined.

(** An implementation of the key interface that writes the members in
    the reverse of the order of the declaration. *)
Lemma member_order_irrelevant_witness :
  Permutation (rev (jwx.fields okpKey)) (jwx.fields okpKey)
  /\ exists d,
      @CreateDIDJWK _
        {| jwk.MarshalJSON := fun k : jwx.PublicKeyJWK =>
             Ok ("{"%char :: jwx.appendMembers true (rev (jwx.fields k))
                   ++ ["}"%char]) |}
        okpKey = Ok d
      /\ Decode d = Ok okpKey.
Proof.
  assert (Hp : Permutation (rev (jwx.fields okpKey)) (jwx.fields okpKey))
    by (apply Permutation_sym, Permutation_rev).
  split; [exact Hp|].
  destruct (@member_order_irrelevant "https://www.w3.org/ns/did/v1"
              "JsonWebKey2020" _
              {| jwk.MarshalJSON := fun k : jwx.PublicKeyJWK =>
                   Ok ("{"%char :: jwx.appendMembers true (rev (jwx.fields k))
                         ++ ["}"%char]) |}
              okpKey okpKey (rev (jwx.fields okpKey)) Hp eq_refl)
    as (d & Hc & Hd & _).
  exists d; split; [exact Hc | exact Hd].
Defined.
